(** * Session communication controller of the chat front end

    A shallow embedding of the React hooks that own the conversation state
    (the three [useChatbot] variants and [useWebSocket]), of the form that
    gates submissions, and of the stand-alone WebSocket test page, together
    with the properties of the conversation log, the busy flag, the draft
    message and the automation plan.

    React state is modelled by explicit state passing: a [useState] cell is a
    record field and a setter is a function on the record.  An [async]
    function is cut at its [await]s: the code between two [await]s runs
    without interruption, so it is one transition, and the place where the
    function is suspended is a [Phase]. *)

From Stdlib Require Import List String Ascii Bool Arith ZArith Lia.
Import ListNotations.
Open Scope string_scope.
Open Scope list_scope.
Set Warnings "-register-all".

(** ** JSON values: what [JSON.stringify] receives and [JSON.parse] returns *)

Inductive json : Type :=
| JNull
| JBool (b : bool)
| JNum (n : Z)
| JStr (s : string)
| JArr (items : list json)
| JObj (fields : list (string * json)).

(** ** frontend/src/types/Message.ts *)

Inductive Sender : Type := USER | AI.

(** The string values of the [Sender] enum. *)
Definition Sender_value (s : Sender) : string :=
  match s with
  | USER => "user"
  | AI => "ai"
  end.

Record Message : Type := mkMessage {
  text : string;
  sender : Sender;
  needsMoreInfo : option bool
}.

(** What [JSON.stringify] makes of a [Message]: the keys in the order of the
    object literal, an absent optional key left out. *)
Definition Message_json (m : Message) : json :=
  JObj ([("text", JStr (text m)); ("sender", JStr (Sender_value (sender m)))]
        ++ match needsMoreInfo m with
           | Some b => [("needsMoreInfo", JBool b)]
           | None => []
           end).

(** [const DEFAULT_MESSAGE = { text: "", sender: Sender.AI }] *)
Definition DEFAULT_MESSAGE : Message := mkMessage "" AI None.

Definition NO_RESPONSE : string := "Error: No response from server".

(** ** The plan, as typed by the BrowserUsePlan component *)

Record BrowserUseFunction : Type := mkFunction {
  name : string;
  args : list (string * json);
  description : option string
}.

Record Plan : Type := mkPlan {
  functions : list BrowserUseFunction;
  explanation : option string;
  plan_action_description : option string
}.

(** ** Requests of the fallback transport

    [path] is what the code appends to [API_BASE_URL]; [body] is the value
    handed to [JSON.stringify]. *)

Record Request : Type := mkRequest {
  path : string;
  body : json
}.

(** ** frontend/src/components/ChatWidgetForm.tsx *)

Module ChatWidgetForm.

(** [formSchema = z.object({ text: z.string().min(1) })] *)
Definition formSchema (values : string) : bool :=
  Nat.leb 1 (String.length values).

(** The form: its text field.  A handler returns the form after it and the
    value passed to [onSubmit], if [onSubmit] was called. *)
Definition handleSubmit (values : string) : string * option string :=
  if formSchema values then ("", Some values) else (values, None).

(** [form.handleSubmit(handleSubmit)]: the resolver validates first and
    calls [handleSubmit] only with valid values. *)
Definition form_handleSubmit (values : string) : string * option string :=
  if formSchema values then handleSubmit values else (values, None).

Definition handleEnterPressed (isGenerating : bool) (values : string)
  : string * option string :=
  if negb isGenerating then form_handleSubmit values else (values, None).

(** The submit button is [disabled={isGenerating}]. *)
Definition clickSubmit (isGenerating : bool) (values : string)
  : string * option string :=
  if isGenerating then (values, None) else form_handleSubmit values.

End ChatWidgetForm.

(** ** frontend/src/hooks/useChatbot.ts: the incremental byte-stream variant *)

Module Streaming.

Record Hook : Type := mkHook {
  messages : list Message;
  currMessage : Message;
  isGenerating : bool
}.

Definition setMessages (f : list Message -> list Message) (h : Hook) : Hook :=
  mkHook (f (messages h)) (currMessage h) (isGenerating h).

Definition setCurrMessage (f : Message -> Message) (h : Hook) : Hook :=
  mkHook (messages h) (f (currMessage h)) (isGenerating h).

Definition setIsGenerating (f : bool -> bool) (h : Hook) : Hook :=
  mkHook (messages h) (currMessage h) (f (isGenerating h)).

(** [useState] initial values. *)
Definition init : Hook := mkHook [] DEFAULT_MESSAGE false.

(** Where [sendMessage] is suspended: not running, at [await fetch(...)],
    or at [await reader.read()] with the local [aiMessage]. *)
Inductive Phase : Type :=
| Idle
| AwaitFetch
| AwaitRead (aiMessage : string).

(** What an [await] resumes with. *)
Inductive Event : Type :=
| FetchRejected
| FetchResolved (bodyIsNull : bool)
| ReadChunk (value : list Byte.byte)
| ReadDone
| ReadRejected.

(** The [catch] and [finally] blocks. *)
Definition catch_block (h : Hook) : Hook :=
  setMessages (fun prev => prev ++ [mkMessage NO_RESPONSE AI None]) h.

Definition finally_block (h : Hook) : Hook :=
  setIsGenerating (fun _ => false) h.

(** [sendMessage] up to its first [await]. *)
Definition sendMessage (message : string) (h : Hook) : Hook * Request :=
  let h := setMessages (fun prev => prev ++ [mkMessage message USER None]) h in
  let h := setIsGenerating (fun _ => true) h in
  (h, mkRequest "" (JObj [("query", JStr message)])).

Section Decoder.

(** [new TextDecoder("utf-8").decode], called without the stream option, so
    a function of the chunk alone. *)
Variable decode : list Byte.byte -> string.

(** [sendMessage] from one [await] to the next (or to its end). *)
Definition resume (ph : Phase) (ev : Event) (h : Hook) : option (Hook * Phase) :=
  match ph, ev with
  | AwaitFetch, FetchRejected => Some (finally_block (catch_block h), Idle)
  | AwaitFetch, FetchResolved true => Some (finally_block h, Idle)
  | AwaitFetch, FetchResolved false => Some (h, AwaitRead "")
  | AwaitRead aiMessage, ReadChunk value =>
      let decodedValue := decode value in
      Some (setCurrMessage
              (fun prev => mkMessage (text prev ++ decodedValue)%string (sender prev) None) h,
            AwaitRead (aiMessage ++ decodedValue)%string)
  | AwaitRead aiMessage, ReadDone =>
      let h :=
        if String.eqb aiMessage ""
        then setMessages (fun prev => prev ++ [mkMessage NO_RESPONSE AI None]) h
        else setMessages (fun prev => prev ++ [mkMessage aiMessage AI None]) h in
      let h := setCurrMessage (fun _ => DEFAULT_MESSAGE) h in
      Some (finally_block h, Idle)
  | AwaitRead _, ReadRejected => Some (finally_block (catch_block h), Idle)
  | _, _ => None
  end.

(** *** The hook under the chat box

    The hook's only caller in this variant is the form of the chat box,
    which is handed [isGenerating]. *)

Record Config : Type := mkConfig {
  hook : Hook;
  phase : Phase;
  outbox : list Request
}.

Definition start : Config := mkConfig init Idle [].

Inductive Input : Type :=
| Enter (values : string)
| Click (values : string)
| Net (ev : Event).

Definition submit (c : Config) (submitted : option string) : option Config :=
  match submitted with
  | None => Some c
  | Some values =>
      match phase c with
      | Idle =>
          let '(h, req) := sendMessage values (hook c) in
          Some (mkConfig h AwaitFetch (outbox c ++ [req]))
      | _ => None
      end
  end.

Definition step (c : Config) (i : Input) : option Config :=
  match i with
  | Enter values =>
      submit c (snd (ChatWidgetForm.handleEnterPressed (isGenerating (hook c)) values))
  | Click values =>
      submit c (snd (ChatWidgetForm.clickSubmit (isGenerating (hook c)) values))
  | Net ev =>
      match resume (phase c) ev (hook c) with
      | Some (h, ph) => Some (mkConfig h ph (outbox c))
      | None => None
      end
  end.

Fixpoint run (c : Config) (inputs : list Input) : option Config :=
  match inputs with
  | [] => Some c
  | i :: rest =>
      match step c i with
      | Some c' => run c' rest
      | None => None
      end
  end.

(** The events of one round trip of the stream: the body's chunks and how
    the stream ends. *)
Inductive Ending : Type := EndOfStream | ReadError.

Definition stream (chunks : list (list Byte.byte)) (e : Ending) : list Input :=
  Net (FetchResolved false)
  :: map (fun value => Net (ReadChunk value)) chunks
  ++ [Net match e with EndOfStream => ReadDone | ReadError => ReadRejected end].

(** The accumulated text of a list of chunks. *)
Definition accumulate (chunks : list (list Byte.byte)) : string :=
  fold_left (fun acc value => (acc ++ decode value)%string) chunks "".

(** The draft after a list of chunks. *)
Definition draft (chunks : list (list Byte.byte)) (m : Message) : Message :=
  fold_left (fun prev value => mkMessage (text prev ++ decode value)%string (sender prev) None)
    chunks m.

(** One round trip as the chat box sees it: the text submitted and what
    the request does. *)
Inductive Outcome : Type :=
| Rejected
| Streamed (chunks : list (list Byte.byte)) (e : Ending).

Definition roundTrip (t : string * Outcome) : list Input :=
  Enter (fst t)
  :: match snd t with
     | Rejected => [Net FetchRejected]
     | Streamed chunks e => stream chunks e
     end.

(** The text of the AI entry that ends a round trip. *)
Definition reply (o : Outcome) : string :=
  match o with
  | Streamed chunks EndOfStream =>
      if String.eqb (accumulate chunks) "" then NO_RESPONSE else accumulate chunks
  | _ => NO_RESPONSE
  end.

Definition entries (t : string * Outcome) : list Message :=
  [mkMessage (fst t) USER None; mkMessage (reply (snd t)) AI None].

End Decoder.

(** *** Invariants of the configurations

    A suspended call keeps the hook busy. *)
Definition in_flight_is_busy (c : Config) : Prop :=
  phase c <> Idle -> isGenerating (hook c) = true.

(** The draft is away from its default only while the stream is read. *)
Definition draft_only_in_stream (c : Config) : Prop :=
  match phase c with
  | AwaitRead _ => True
  | _ => currMessage (hook c) = DEFAULT_MESSAGE
  end.

(** The draft is the accumulator while the stream is read, and the default
    otherwise. *)
Definition draft_tracks (c : Config) : Prop :=
  match phase c with
  | AwaitRead aiMessage => currMessage (hook c) = mkMessage aiMessage AI None
  | _ => currMessage (hook c) = DEFAULT_MESSAGE
  end.

(** The entries of the log that the user wrote. *)
Definition userEntries (log : list Message) : list Message :=
  filter (fun m => match sender m with USER => true | AI => false end) log.

End Streaming.

(** ** The body of an atomic chat reply ([await res.json()]), with the
    fields the hooks read *)

Record ChatData : Type := mkChatData {
  data_content : string;
  data_needs_more_info : bool;
  data_browser_use_plan : option Plan
}.

(** ** The [useChatbot] variant over the atomic [/chat] request *)

Module Atomic.

Record Hook : Type := mkHook {
  messages : list Message;
  currMessage : Message;
  isGenerating : bool
}.

Definition setMessages (f : list Message -> list Message) (h : Hook) : Hook :=
  mkHook (f (messages h)) (currMessage h) (isGenerating h).

Definition setIsGenerating (f : bool -> bool) (h : Hook) : Hook :=
  mkHook (messages h) (currMessage h) (f (isGenerating h)).

Definition init : Hook := mkHook [] DEFAULT_MESSAGE false.

Inductive Phase : Type :=
| Idle
| AwaitFetch
| AwaitJson.

Inductive Event : Type :=
| FetchRejected
| FetchResolved (bodyIsNull : bool)
| JsonRejected
| JsonResolved (data : ChatData).

Definition catch_block (h : Hook) : Hook :=
  setMessages (fun prev => prev ++ [mkMessage NO_RESPONSE AI None]) h.

Definition finally_block (h : Hook) : Hook :=
  setIsGenerating (fun _ => false) h.

(** [sendMessage] up to [await fetch]; [messages] in the request body is the
    log of the render the function was created in. *)
Definition sendMessage (message : string) (h : Hook) : Hook * Request :=
  let history := messages h in
  let h := setMessages (fun prev => prev ++ [mkMessage message USER None]) h in
  let h := setIsGenerating (fun _ => true) h in
  (h, mkRequest "/chat"
        (JObj [("message", JStr message);
               ("history", JArr (map Message_json history))])).

(** The two branches on [data.needs_more_info]; the second goes through a
    template literal, which leaves a string as it is. *)
Definition resume (ph : Phase) (ev : Event) (h : Hook) : option (Hook * Phase) :=
  match ph, ev with
  | AwaitFetch, FetchRejected => Some (finally_block (catch_block h), Idle)
  | AwaitFetch, FetchResolved true => Some (finally_block h, Idle)
  | AwaitFetch, FetchResolved false => Some (h, AwaitJson)
  | AwaitJson, JsonRejected => Some (finally_block (catch_block h), Idle)
  | AwaitJson, JsonResolved data =>
      let h :=
        if data_needs_more_info data
        then setMessages (fun prev => prev ++ [mkMessage (data_content data) AI None]) h
        else setMessages
               (fun prev => prev ++ [mkMessage ("" ++ data_content data)%string AI None]) h in
      Some (finally_block h, Idle)
  | _, _ => None
  end.

Fixpoint resumes (ph : Phase) (evs : list Event) (h : Hook) : option (Hook * Phase) :=
  match evs with
  | [] => Some (h, ph)
  | ev :: rest =>
      match resume ph ev h with
      | Some (h', ph') => resumes ph' rest h'
      | None => None
      end
  end.

(** An event with the [needs_more_info] of its reply, if it carries one,
    set to [b]: two traces that differ in nothing but that flag are the
    images of one trace under two values of [b]. *)
Definition with_flag (b : bool) (ev : Event) : Event :=
  match ev with
  | JsonResolved data =>
      JsonResolved (mkChatData (data_content data) b (data_browser_use_plan data))
  | _ => ev
  end.

End Atomic.

(** ** The effects a handler asks the browser for *)

Inductive Callback : Type := ConnectWebSocket.

Inductive Effect : Type :=
| NewWebSocket
| SocketSend (frame : json)
| SocketClose
| SetTimeout (callback : Callback) (ms : nat)
| Fetch (req : Request).

Inductive ReadyState : Type := CONNECTING | OPEN | CLOSING | CLOSED.

(** What the browser reports about a socket; [Received] carries the result
    of [JSON.parse(event.data)], [None] when it throws. *)
Inductive SocketEvent (Frame : Type) : Type :=
| Opened
| Received (parsed : option Frame)
| Errored
| Closed.

Arguments Opened {Frame}.
Arguments Received {Frame} parsed.
Arguments Errored {Frame}.
Arguments Closed {Frame}.

(** ** frontend/src/hooks/useWebSocket.ts *)

Module UseWebSocket.

(** An inbound frame, [{ type: string; [key: string]: any }], with the keys
    the controller reads. *)
Record WebSocketMessage : Type := mkFrame {
  type : string;
  content : string;
  needs_more_info : bool;
  browser_use_plan : option Plan;
  plan : option Plan;
  message : string
}.

Record State : Type := mkState {
  isConnected : bool;
  lastMessage : option WebSocketMessage;
  error : option string;
  socketRef : option ReadyState
}.

Definition setIsConnected (b : bool) (s : State) : State :=
  mkState b (lastMessage s) (error s) (socketRef s).

Definition setLastMessage (m : option WebSocketMessage) (s : State) : State :=
  mkState (isConnected s) m (error s) (socketRef s).

Definition setError (e : option string) (s : State) : State :=
  mkState (isConnected s) (lastMessage s) e (socketRef s).

Definition setReadyState (r : ReadyState) (s : State) : State :=
  mkState (isConnected s) (lastMessage s) (error s) (Some r).

Definition init : State := mkState false None None None.

(** The connection effect, run once on mount. *)
Definition mount (s : State) : State * list Effect :=
  (setReadyState CONNECTING s, [NewWebSocket]).

Definition onopen (s : State) : State * list Effect :=
  (setError None (setIsConnected true s), []).

Definition onmessage (parsed : option WebSocketMessage) (s : State)
  : State * list Effect :=
  match parsed with
  | Some data => (setLastMessage (Some data) s, [])
  | None => (setError (Some "Failed to parse message from server") s, [])
  end.

Definition onerror (s : State) : State * list Effect :=
  (setIsConnected false (setError (Some "WebSocket connection error") s), []).

Definition onclose (s : State) : State * list Effect :=
  (setIsConnected false s, []).

(** The clean-up of the connection effect, run on unmount. *)
Definition cleanup (s : State) : State * list Effect :=
  match socketRef s with
  | Some OPEN => (setReadyState CLOSING s, [SocketClose])
  | _ => (s, [])
  end.

(** The browser moves the socket's [readyState], then calls the handler. *)
Definition handle (ev : SocketEvent WebSocketMessage) (s : State)
  : State * list Effect :=
  match ev with
  | Opened => onopen (setReadyState OPEN s)
  | Received parsed => onmessage parsed s
  | Errored => onerror s
  | Closed => onclose (setReadyState CLOSED s)
  end.

Definition sendMessage (frame : json) (s : State) : State * list Effect :=
  match socketRef s with
  | Some OPEN => (s, [SocketSend frame])
  | _ => (setError (Some "WebSocket is not connected") s, [])
  end.

Definition generateBrowserUseFunctions (actionDescription : string) (s : State)
  : State * list Effect :=
  sendMessage (JObj [("type", JStr "browser_use");
                     ("action_description", JStr actionDescription)]) s.

Definition sendChatMessage (msg : string) (history : list json) (s : State)
  : State * list Effect :=
  sendMessage (JObj [("type", JStr "chat");
                     ("message", JStr msg);
                     ("history", JArr history)]) s.

(** [API_BASE_URL.replace(/^http/, 'ws')]: the pattern is anchored at the
    start and case-sensitive. *)
Definition replace_http (baseUrl : string) : string :=
  match baseUrl with
  | String "h"%char (String "t"%char (String "t"%char (String "p"%char rest))) =>
      ("ws" ++ rest)%string
  | _ => baseUrl
  end.

(** [getWebSocketUrl], given the base URL and the identifier [uuidv4()]
    returns. *)
Definition getWebSocketUrl (API_BASE_URL uuid : string) : string :=
  (replace_http API_BASE_URL ++ "/ws/" ++ uuid)%string.

End UseWebSocket.

(** ** The [useChatbot] variant over [useWebSocket], with the HTTP fallback *)

Module WS.

Import UseWebSocket.

Record Hook : Type := mkHook {
  messages : list Message;
  currMessage : Message;
  isGenerating : bool;
  browserUsePlan : option Plan
}.

Definition setMessages (f : list Message -> list Message) (h : Hook) : Hook :=
  mkHook (f (messages h)) (currMessage h) (isGenerating h) (browserUsePlan h).

Definition setIsGenerating (b : bool) (h : Hook) : Hook :=
  mkHook (messages h) (currMessage h) b (browserUsePlan h).

Definition setBrowserUsePlan (p : option Plan) (h : Hook) : Hook :=
  mkHook (messages h) (currMessage h) (isGenerating h) p.

Definition init : Hook := mkHook [] DEFAULT_MESSAGE false None.

(** The effect on [lastMessage]: the inbound frames, by [type]. *)
Definition onLastMessage (lastMessage : option WebSocketMessage) (h : Hook) : Hook :=
  match lastMessage with
  | None => h
  | Some lastMessage =>
      if String.eqb (type lastMessage) "chat_response" then
        let h := setMessages
                   (fun prev => prev ++ [mkMessage (content lastMessage) AI None]) h in
        let h := match browser_use_plan lastMessage with
                 | Some p => setBrowserUsePlan (Some p) h
                 | None => h
                 end in
        setIsGenerating false h
      else if String.eqb (type lastMessage) "browser_use_plan" then
        let h := setBrowserUsePlan (plan lastMessage) h in
        setIsGenerating false h
      else if String.eqb (type lastMessage) "error" then
        let h := setMessages
                   (fun prev =>
                      prev ++ [mkMessage ("Error: " ++ message lastMessage)%string AI None])
                   h in
        setIsGenerating false h
      else h
  end.

(** The effect on [error]. *)
Definition onError (error : option string) (h : Hook) : Hook :=
  match error with
  | Some e =>
      setMessages
        (fun prev =>
           prev ++ [mkMessage ("Connection error: " ++ e ++ ". Falling back to HTTP.")%string
                      AI None]) h
  | None => h
  end.

(** The history of a chat frame: [role] and [content] for each message. *)
Definition role_pair (msg : Message) : json :=
  JObj [("role", JStr match sender msg with USER => "user" | AI => "assistant" end);
        ("content", JStr (text msg))].

Inductive Phase : Type :=
| Idle
| SendAwaitFetch
| SendAwaitJson
| GenerateAwaitFetch
| GenerateAwaitJson.

Inductive Event : Type :=
| FetchRejected
| FetchResolved (bodyIsNull : bool)
| JsonRejected
| ChatJson (data : ChatData)
| PlanJson (data : Plan).

(** [sendMessage] up to its end (over the socket) or to [await fetch]. *)
Definition sendMessage (msg : string) (ws : State) (h : Hook)
  : Hook * State * list Effect * Phase :=
  let log := messages h in
  let h := setMessages (fun prev => prev ++ [mkMessage msg USER None]) h in
  let h := setIsGenerating true h in
  if isConnected ws then
    let history := map role_pair log in
    let '(ws, effects) := sendChatMessage msg history ws in
    (h, ws, effects, Idle)
  else
    (h, ws,
     [Fetch (mkRequest "/chat/browser-use"
               (JObj [("message", JStr msg);
                      ("history", JArr (map Message_json log))]))],
     SendAwaitFetch).

Definition sendMessage_catch (h : Hook) : Hook :=
  let h := setMessages (fun prev => prev ++ [mkMessage NO_RESPONSE AI None]) h in
  setIsGenerating false h.

(** [generateBrowserUse] up to its end or to [await fetch]. *)
Definition generateBrowserUse (actionDescription : string) (ws : State) (h : Hook)
  : Hook * State * list Effect * Phase :=
  let h := setIsGenerating true h in
  if isConnected ws then
    let '(ws, effects) := generateBrowserUseFunctions actionDescription ws in
    (h, ws, effects, Idle)
  else
    (h, ws,
     [Fetch (mkRequest "/api/browser-use"
               (JObj [("action_description", JStr actionDescription)]))],
     GenerateAwaitFetch).

Definition generateBrowserUse_catch (h : Hook) : Hook :=
  setIsGenerating false h.

(** Either function from one [await] to the next (or to its end). *)
Definition resume (ph : Phase) (ev : Event) (h : Hook) : option (Hook * Phase) :=
  match ph, ev with
  | SendAwaitFetch, FetchRejected => Some (sendMessage_catch h, Idle)
  | SendAwaitFetch, FetchResolved true => Some (sendMessage_catch h, Idle)
  | SendAwaitFetch, FetchResolved false => Some (h, SendAwaitJson)
  | SendAwaitJson, JsonRejected => Some (sendMessage_catch h, Idle)
  | SendAwaitJson, ChatJson data =>
      let h :=
        if data_needs_more_info data then
          setMessages (fun prev => prev ++ [mkMessage (data_content data) AI None]) h
        else
          let h := setMessages
                     (fun prev => prev ++ [mkMessage (data_content data) AI None]) h in
          match data_browser_use_plan data with
          | Some p => setBrowserUsePlan (Some p) h
          | None => h
          end in
      Some (setIsGenerating false h, Idle)
  | GenerateAwaitFetch, FetchRejected => Some (generateBrowserUse_catch h, Idle)
  | GenerateAwaitFetch, FetchResolved true => Some (generateBrowserUse_catch h, Idle)
  | GenerateAwaitFetch, FetchResolved false => Some (h, GenerateAwaitJson)
  | GenerateAwaitJson, JsonRejected => Some (generateBrowserUse_catch h, Idle)
  | GenerateAwaitJson, PlanJson data =>
      Some (setIsGenerating false (setBrowserUsePlan (Some data) h), Idle)
  | _, _ => None
  end.

(** *** The chat page: the hook, its socket and its callers *)

Record Config : Type := mkConfig {
  hook : Hook;
  ws : State;
  phase : Phase;
  effects : list Effect
}.

Definition start : Config :=
  let '(s, effs) := mount UseWebSocket.init in
  mkConfig init s Idle effs.

Inductive Input : Type :=
| Enter (values : string)
| Click (values : string)
| Generate (actionDescription : string)
| Socket (ev : SocketEvent WebSocketMessage)
| Net (ev : Event).

(** React runs the effect on [error] after a render in which [error] is
    not the value it was. *)
Definition errorEffect (before after : option string) (h : Hook) : Hook :=
  match before, after with
  | Some e0, Some e => if String.eqb e0 e then h else onError after h
  | None, None => h
  | _, _ => onError after h
  end.

(** A call of one of the hook's functions.  One suspended call is kept: a
    call made while another is suspended at an [await] is outside the
    model. *)
Definition call (c : Config)
  (f : State -> Hook -> Hook * State * list Effect * Phase) : option Config :=
  match phase c with
  | Idle =>
      let '(h, s, effs, ph) := f (ws c) (hook c) in
      Some (mkConfig (errorEffect (error (ws c)) (error s) h) s ph (effects c ++ effs))
  | _ => None
  end.

Definition submit (c : Config) (submitted : option string) : option Config :=
  match submitted with
  | None => Some c
  | Some values => call c (sendMessage values)
  end.

Definition step (c : Config) (i : Input) : option Config :=
  match i with
  | Enter values =>
      submit c (snd (ChatWidgetForm.handleEnterPressed (isGenerating (hook c)) values))
  | Click values =>
      submit c (snd (ChatWidgetForm.clickSubmit (isGenerating (hook c)) values))
  | Generate actionDescription => call c (generateBrowserUse actionDescription)
  | Socket ev =>
      let '(s, effs) := handle ev (ws c) in
      (* a parsed frame is a new object, so the effect on [lastMessage] runs *)
      let h := match ev with
               | Received (Some _) => onLastMessage (lastMessage s) (hook c)
               | _ => hook c
               end in
      Some (mkConfig (errorEffect (error (ws c)) (error s) h) s (phase c)
              (effects c ++ effs))
  | Net ev =>
      match resume (phase c) ev (hook c) with
      | Some (h, ph) => Some (mkConfig h (ws c) ph (effects c))
      | None => None
      end
  end.

Fixpoint run (c : Config) (inputs : list Input) : option Config :=
  match inputs with
  | [] => Some c
  | i :: rest =>
      match step c i with
      | Some c' => run c' rest
      | None => None
      end
  end.

(** One round trip of [sendMessage] as the chat box sees it: the text
    submitted and what answers it, a frame on the socket or the outcome of
    the HTTP request. *)
Inductive Failure : Type := RequestRejected | NoBody | BadJson.

Inductive Outcome : Type :=
| OverSocket (frame : WebSocketMessage)
| HttpReply (data : ChatData)
| HttpFailure (f : Failure).

Definition completion (o : Outcome) : list Input :=
  match o with
  | OverSocket frame => [Socket (Received (Some frame))]
  | HttpReply data => [Net (FetchResolved false); Net (ChatJson data)]
  | HttpFailure RequestRejected => [Net FetchRejected]
  | HttpFailure NoBody => [Net (FetchResolved true)]
  | HttpFailure BadJson => [Net (FetchResolved false); Net JsonRejected]
  end.

Definition roundTrip (t : string * Outcome) : list Input :=
  Enter (fst t) :: completion (snd t).

(** The text of the AI entry that ends a round trip. *)
Definition reply (o : Outcome) : string :=
  match o with
  | OverSocket frame =>
      if String.eqb (type frame) "chat_response" then content frame
      else ("Error: " ++ message frame)%string
  | HttpReply data => data_content data
  | HttpFailure _ => NO_RESPONSE
  end.

Definition entries (t : string * Outcome) : list Message :=
  [mkMessage (fst t) USER None; mkMessage (reply (snd t)) AI None].

(** The outcome goes with the state of the connection: a [chat_response]
    or [error] frame over the open socket, the HTTP request otherwise. *)
Definition fits (s : State) (o : Outcome) : Prop :=
  match o with
  | OverSocket frame =>
      isConnected s = true /\ socketRef s = Some OPEN /\
      (type frame = "chat_response" \/ type frame = "error")
  | _ => isConnected s = false
  end.

(** [h'] has the log of [h] followed by entries without [needsMoreInfo]. *)
Definition extends (h h' : Hook) : Prop :=
  exists added : list Message,
    messages h' = messages h ++ added /\
    Forall (fun e => needsMoreInfo e = None) added.

(** One round trip of [generateBrowserUse]: a frame on the socket or the
    outcome of the HTTP request. *)
Inductive PlanOutcome : Type :=
| PlanOverSocket (frame : WebSocketMessage)
| PlanReply (data : Plan)
| PlanFailure (f : Failure).

Definition planCompletion (o : PlanOutcome) : list Input :=
  match o with
  | PlanOverSocket frame => [Socket (Received (Some frame))]
  | PlanReply data => [Net (FetchResolved false); Net (PlanJson data)]
  | PlanFailure RequestRejected => [Net FetchRejected]
  | PlanFailure NoBody => [Net (FetchResolved true)]
  | PlanFailure BadJson => [Net (FetchResolved false); Net JsonRejected]
  end.

(** The plan after the round trip, given the plan before it. *)
Definition planAfter (o : PlanOutcome) (before : option Plan) : option Plan :=
  match o with
  | PlanOverSocket frame =>
      if String.eqb (type frame) "browser_use_plan" then plan frame
      else if String.eqb (type frame) "chat_response" then
        match browser_use_plan frame with
        | Some p => Some p
        | None => before
        end
      else before
  | PlanReply data => Some data
  | PlanFailure _ => before
  end.

(** The entries the round trip adds to the log. *)
Definition planEntries (o : PlanOutcome) : list Message :=
  match o with
  | PlanOverSocket frame =>
      if String.eqb (type frame) "chat_response" then
        [mkMessage (content frame) AI None]
      else if String.eqb (type frame) "error" then
        [mkMessage ("Error: " ++ message frame)%string AI None]
      else []
  | _ => []
  end.

(** The outcome goes with the state of the connection: over the open
    socket any of the three frames that end a round trip, the HTTP request
    otherwise. *)
Definition planFits (s : State) (o : PlanOutcome) : Prop :=
  match o with
  | PlanOverSocket frame =>
      isConnected s = true /\ socketRef s = Some OPEN /\
      (type frame = "browser_use_plan" \/ type frame = "error" \/
       type frame = "chat_response")
  | _ => isConnected s = false
  end.

End WS.

(** ** websocket_test.html: the script of the test page *)

Module TestPage.

Record Page : Type := mkPage {
  socket : option ReadyState;
  connectionStatus : string;
  timers : list (Callback * nat);
  effects : list Effect
}.

(** [let socket = null] and no timer pending. *)
Definition init : Page := mkPage None "" [] [].

Definition emit (effs : list Effect) (p : Page) : Page :=
  mkPage (socket p) (connectionStatus p) (timers p) (effects p ++ effs).

Definition setStatus (s : string) (p : Page) : Page :=
  mkPage (socket p) s (timers p) (effects p).

Definition setSocket (r : ReadyState) (p : Page) : Page :=
  mkPage (Some r) (connectionStatus p) (timers p) (effects p).

(** [setTimeout(callback, ms)]: the timer is pending from now on. *)
Definition setTimeout (callback : Callback) (ms : nat) (p : Page) : Page :=
  mkPage (socket p) (connectionStatus p) (timers p ++ [(callback, ms)])
    (effects p ++ [SetTimeout callback ms]).

Definition connectWebSocket (p : Page) : Page :=
  let p := match socket p with
           | Some _ => emit [SocketClose] p
           | None => p
           end in
  emit [NewWebSocket] (setSocket CONNECTING p).

Definition on_open (p : Page) : Page := setStatus "WebSocket: Connected" p.

Definition on_close (p : Page) : Page :=
  let p := setStatus "WebSocket: Disconnected" p in
  setTimeout ConnectWebSocket 5000 p.

Definition on_error (p : Page) : Page := setStatus "WebSocket: Error" p.

Definition runCallback (callback : Callback) (p : Page) : Page :=
  match callback with
  | ConnectWebSocket => connectWebSocket p
  end.

Inductive Input : Type :=
| Load
| Socket (ev : SocketEvent json)
| TimerFires.

(** The message listener writes to the document and to [chatHistory] only,
    which are not part of [Page]. *)
Definition step (p : Page) (i : Input) : option Page :=
  match i with
  | Load => Some (connectWebSocket p)
  | Socket Opened => Some (on_open (setSocket OPEN p))
  | Socket (Received _) => Some p
  | Socket Errored => Some (on_error p)
  | Socket Closed => Some (on_close (setSocket CLOSED p))
  | TimerFires =>
      match timers p with
      | (callback, _) :: rest =>
          Some (runCallback callback
                  (mkPage (socket p) (connectionStatus p) rest (effects p)))
      | [] => None
      end
  end.

Fixpoint run (p : Page) (inputs : list Input) : option Page :=
  match inputs with
  | [] => Some p
  | i :: rest =>
      match step p i with
      | Some p' => run p' rest
      | None => None
      end
  end.

(** [n] times: the socket closes, then the pending timer fires. *)
Definition closeAndFire (n : nat) : list Input :=
  List.concat (repeat [Socket Closed; TimerFires] n).

End TestPage.

(** The reconnects a list of effects schedules. *)
Definition reconnects (effs : list Effect) : list nat :=
  flat_map (fun e => match e with
                     | SetTimeout ConnectWebSocket ms => [ms]
                     | _ => []
                     end) effs.

(** ** frontend/src/components/ChatBox.tsx and ChatMessage.tsx: what the
    chat box shows above the form *)

Module ChatBox.

Inductive Item : Type :=
| ChatMessage (message : Message) (isSender : bool)
| FancyLoadingIndicator.

(** [ChatMessage]: [isSender = message.sender === Sender.USER]. *)
Definition renderMessage (m : Message) : Item :=
  ChatMessage m match sender m with USER => true | AI => false end.

(** The log, then the draft if its text is not empty, then the indicator
    if generating with an empty draft. *)
Definition render (messages : list Message) (currMessage : Message)
  (isGenerating : bool) : list Item :=
  map renderMessage messages
  ++ (if String.eqb (text currMessage) "" then [] else [renderMessage currMessage])
  ++ (if isGenerating && String.eqb (text currMessage) ""
      then [FancyLoadingIndicator] else []).

(** The chat box over the byte-stream hook. *)
Definition view (h : Streaming.Hook) : list Item :=
  render (Streaming.messages h) (Streaming.currMessage h) (Streaming.isGenerating h).

End ChatBox.

(** ** websocket_test.html: the two send buttons and the message listener

    The page as far as the wire is concerned: the socket, [chatHistory], the
    frames sent and the alerts raised.  What the handlers write into the
    document is left out. *)

Module TestPageForms.

Record Page : Type := mkPage {
  socket : option ReadyState;
  chatHistory : list json;
  sent : list json;
  alerts : list string
}.

Definition alert (msg : string) (p : Page) : Page :=
  mkPage (socket p) (chatHistory p) (sent p) (alerts p ++ [msg]).

Definition history_entry (role content : string) : json :=
  JObj [("role", JStr role); ("content", JStr content)].

Section Trim.

(** [String.prototype.trim]. *)
Variable trim : string -> string.

(** The click listener of [sendChat]. *)
Definition sendChat (chatMessage : string) (p : Page) : Page :=
  let message := trim chatMessage in
  if String.eqb message "" then alert "Please enter a message" p
  else
    match socket p with
    | Some OPEN =>
        let chatHistory := chatHistory p ++ [history_entry "user" message] in
        mkPage (socket p) chatHistory
          (sent p ++ [JObj [("type", JStr "chat");
                            ("message", JStr message);
                            ("history", JArr chatHistory)]])
          (alerts p)
    | _ => alert "WebSocket is not connected" p
    end.

(** The click listener of [sendAction]; [parsed] is what
    [parseInt(maxSteps.value, 10)] returns, [None] for [NaN]. *)
Definition sendAction (actionDescription : string) (parsed : option Z) (p : Page)
  : Page :=
  let actionDescription := trim actionDescription in
  let maxSteps := match parsed with
                  | Some 0%Z | None => 10%Z
                  | Some n => n
                  end in
  if String.eqb actionDescription "" then alert "Please enter an action description" p
  else
    match socket p with
    | Some OPEN =>
        mkPage (socket p) (chatHistory p)
          (sent p ++ [JObj [("type", JStr "browser_use");
                            ("action_description", JStr actionDescription);
                            ("max_steps", JNum maxSteps)]])
          (alerts p)
    | _ => alert "WebSocket is not connected" p
    end.

(** The message listener, for a frame that parses: only a [chat_response]
    reaches [chatHistory]. *)
Definition on_message (data : UseWebSocket.WebSocketMessage) (p : Page) : Page :=
  if String.eqb (UseWebSocket.type data) "browser_use_plan" then p
  else if String.eqb (UseWebSocket.type data) "chat_response" then
    mkPage (socket p)
      (chatHistory p ++ [history_entry "assistant" (UseWebSocket.content data)])
      (sent p) (alerts p)
  else p.

Inductive Input : Type :=
| SendChat (chatMessage : string)
| SendAction (actionDescription : string) (parsed : option Z)
| Message (data : UseWebSocket.WebSocketMessage).

Definition step (p : Page) (i : Input) : Page :=
  match i with
  | SendChat chatMessage => sendChat chatMessage p
  | SendAction actionDescription parsed => sendAction actionDescription parsed p
  | Message data => on_message data p
  end.

Definition run (p : Page) (inputs : list Input) : Page := fold_left step inputs p.

End Trim.

(** The histories of the chat frames among the frames sent. *)
Definition histories (frames : list json) : list (list json) :=
  flat_map (fun frame =>
              match frame with
              | JObj [("type", JStr "chat"); ("message", _); ("history", JArr h)] => [h]
              | _ => []
              end) frames.

(** The [max_steps] of the action frames among the frames sent. *)
Definition maxSteps (frames : list json) : list Z :=
  flat_map (fun frame =>
              match frame with
              | JObj [("type", JStr "browser_use"); ("action_description", _);
                      ("max_steps", JNum n)] => [n]
              | _ => []
              end) frames.

End TestPageForms.

(** ** The atomic variant with the reply as [res.json()] gives it

    [Atomic] takes the reply with the types of the wire format.  The code
    does not check them: [data] is whatever JSON the response holds, and the
    entry appended holds whatever [data.content] is. *)

Module AtomicRaw.

(** A JavaScript value read from parsed JSON; [None] is [undefined]. *)
Definition any : Type := option json.

(** [data.key]: the last of the keys wins in [JSON.parse]; a value that is
    not an object has no such key. *)
Fixpoint lookup (key : string) (fields : list (string * json)) : any :=
  match fields with
  | [] => None
  | (k, v) :: rest =>
      match lookup key rest with
      | Some v' => Some v'
      | None => if String.eqb k key then Some v else None
      end
  end.

Definition field (key : string) (data : json) : any :=
  match data with
  | JObj fields => lookup key fields
  | _ => None
  end.

(** Truthiness of a value read from parsed JSON. *)
Definition truthy (v : any) : bool :=
  match v with
  | None => false
  | Some JNull => false
  | Some (JBool b) => b
  | Some (JNum n) => negb (Z.eqb n 0)
  | Some (JStr s) => negb (String.eqb s "")
  | Some _ => true
  end.

(** A log entry as the object is built: [text] holds what was assigned. *)
Record Entry : Type := mkEntry {
  entry_text : any;
  entry_sender : Sender
}.

Record Hook : Type := mkHook {
  messages : list Entry;
  currMessage : Message;
  isGenerating : bool
}.

Definition setMessages (f : list Entry -> list Entry) (h : Hook) : Hook :=
  mkHook (f (messages h)) (currMessage h) (isGenerating h).

Definition setIsGenerating (f : bool -> bool) (h : Hook) : Hook :=
  mkHook (messages h) (currMessage h) (f (isGenerating h)).

Inductive Phase : Type :=
| Idle
| AwaitFetch
| AwaitJson.

Inductive Event : Type :=
| FetchRejected
| FetchResolved (bodyIsNull : bool)
| JsonRejected
| JsonResolved (data : json).

Definition catch_block (h : Hook) : Hook :=
  setMessages (fun prev => prev ++ [mkEntry (Some (JStr NO_RESPONSE)) AI]) h.

Definition finally_block (h : Hook) : Hook :=
  setIsGenerating (fun _ => false) h.

(** What [JSON.stringify] makes of an entry: a key whose value is
    [undefined] is left out. *)
Definition Entry_json (e : Entry) : json :=
  JObj (match entry_text e with
        | Some v => [("text", v)]
        | None => []
        end
        ++ [("sender", JStr (Sender_value (entry_sender e)))]).

Definition sendMessage (message : string) (h : Hook) : Hook * Request :=
  let history := messages h in
  let h := setMessages (fun prev => prev ++ [mkEntry (Some (JStr message)) USER]) h in
  let h := setIsGenerating (fun _ => true) h in
  (h, mkRequest "/chat"
        (JObj [("message", JStr message);
               ("history", JArr (map Entry_json history))])).

Section Template.

(** The string a template literal makes of a value. *)
Variable ToString : any -> string.

(** Reading a key of [null] throws, which lands in the [catch] block. *)
Definition resume (ph : Phase) (ev : Event) (h : Hook) : option (Hook * Phase) :=
  match ph, ev with
  | AwaitFetch, FetchRejected => Some (finally_block (catch_block h), Idle)
  | AwaitFetch, FetchResolved true => Some (finally_block h, Idle)
  | AwaitFetch, FetchResolved false => Some (h, AwaitJson)
  | AwaitJson, JsonRejected => Some (finally_block (catch_block h), Idle)
  | AwaitJson, JsonResolved JNull => Some (finally_block (catch_block h), Idle)
  | AwaitJson, JsonResolved data =>
      let h :=
        if truthy (field "needs_more_info" data)
        then setMessages (fun prev => prev ++ [mkEntry (field "content" data) AI]) h
        else setMessages
               (fun prev =>
                  prev ++ [mkEntry (Some (JStr (ToString (field "content" data)))) AI])
               h in
      Some (finally_block h, Idle)
  | _, _ => None
  end.

End Template.

(** The entry the HTTP fallback of the WebSocket variant appends for the
    same reply: [text: data.content] in both branches. *)
Definition fallbackEntry (data : json) : Entry :=
  if truthy (field "needs_more_info" data)
  then mkEntry (field "content" data) AI
  else mkEntry (field "content" data) AI.

(** A typed message and a typed hook, as entries. *)
Definition ofMessage (m : Message) : Entry :=
  mkEntry (Some (JStr (text m))) (sender m).

Definition ofHook (h : Atomic.Hook) : Hook :=
  mkHook (map ofMessage (Atomic.messages h)) (Atomic.currMessage h)
    (Atomic.isGenerating h).

Definition ofPhase (ph : Atomic.Phase) : Phase :=
  match ph with
  | Atomic.Idle => Idle
  | Atomic.AwaitFetch => AwaitFetch
  | Atomic.AwaitJson => AwaitJson
  end.

(** A reply that has the types of the wire format. *)
Definition ofData (data : ChatData) : json :=
  JObj [("content", JStr (data_content data));
        ("needs_more_info", JBool (data_needs_more_info data))].

Definition ofEvent (ev : Atomic.Event) : Event :=
  match ev with
  | Atomic.FetchRejected => FetchRejected
  | Atomic.FetchResolved b => FetchResolved b
  | Atomic.JsonRejected => JsonRejected
  | Atomic.JsonResolved data => JsonResolved (ofData data)
  end.

End AtomicRaw.

(** ** The chat page with overlapping calls

    [WS.Config] keeps one suspended call.  Nothing in the hook keeps a
    second call from starting while a first is suspended: a frame can clear
    busy while a request is pending, and [generateBrowserUse] is not gated.
    Here every call is accepted and each suspended call is resumed by its
    own outcome. *)

Module Page.

Record Config : Type := mkConfig {
  hook : WS.Hook;
  ws : UseWebSocket.State;
  pending : list WS.Phase;
  effects : list Effect
}.

Definition start : Config :=
  let '(s, effs) := UseWebSocket.mount UseWebSocket.init in
  mkConfig WS.init s [] effs.

(** [Net k ev]: the [k]-th suspended call resumes with [ev]. *)
Inductive Input : Type :=
| Enter (values : string)
| Click (values : string)
| Generate (actionDescription : string)
| Socket (ev : SocketEvent UseWebSocket.WebSocketMessage)
| Net (k : nat) (ev : WS.Event).

Definition suspend (ph : WS.Phase) (pending : list WS.Phase) : list WS.Phase :=
  match ph with
  | WS.Idle => pending
  | _ => pending ++ [ph]
  end.

(** The [k]-th suspended call moves to [ph], or is over. *)
Fixpoint settle (k : nat) (ph : WS.Phase) (pending : list WS.Phase) : list WS.Phase :=
  match pending, k with
  | [], _ => []
  | _ :: rest, O =>
      match ph with
      | WS.Idle => rest
      | _ => ph :: rest
      end
  | p :: rest, S k' => p :: settle k' ph rest
  end.

Definition call (c : Config)
  (f : UseWebSocket.State -> WS.Hook ->
       WS.Hook * UseWebSocket.State * list Effect * WS.Phase) : Config :=
  let '(h, s, effs, ph) := f (ws c) (hook c) in
  mkConfig (WS.errorEffect (UseWebSocket.error (ws c)) (UseWebSocket.error s) h) s
    (suspend ph (pending c)) (effects c ++ effs).

Definition submit (c : Config) (submitted : option string) : Config :=
  match submitted with
  | None => c
  | Some values => call c (WS.sendMessage values)
  end.

Definition step (c : Config) (i : Input) : option Config :=
  match i with
  | Enter values =>
      Some (submit c
              (snd (ChatWidgetForm.handleEnterPressed (WS.isGenerating (hook c)) values)))
  | Click values =>
      Some (submit c
              (snd (ChatWidgetForm.clickSubmit (WS.isGenerating (hook c)) values)))
  | Generate actionDescription => Some (call c (WS.generateBrowserUse actionDescription))
  | Socket ev =>
      let '(s, effs) := UseWebSocket.handle ev (ws c) in
      let h := match ev with
               | Received (Some _) => WS.onLastMessage (UseWebSocket.lastMessage s) (hook c)
               | _ => hook c
               end in
      Some (mkConfig
              (WS.errorEffect (UseWebSocket.error (ws c)) (UseWebSocket.error s) h) s
              (pending c) (effects c ++ effs))
  | Net k ev =>
      match nth_error (pending c) k with
      | Some ph =>
          match WS.resume ph ev (hook c) with
          | Some (h, ph') => Some (mkConfig h (ws c) (settle k ph' (pending c)) (effects c))
          | None => None
          end
      | None => None
      end
  end.

Fixpoint run (c : Config) (inputs : list Input) : option Config :=
  match inputs with
  | [] => Some c
  | i :: rest =>
      match step c i with
      | Some c' => run c' rest
      | None => None
      end
  end.

(** A configuration with one suspended call at most, and its inputs. *)
Definition ofConfig (c : WS.Config) : Config :=
  mkConfig (WS.hook c) (WS.ws c) (suspend (WS.phase c) []) (WS.effects c).

Definition ofInput (i : WS.Input) : Input :=
  match i with
  | WS.Enter values => Enter values
  | WS.Click values => Click values
  | WS.Generate actionDescription => Generate actionDescription
  | WS.Socket ev => Socket ev
  | WS.Net ev => Net 0 ev
  end.

End Page.

(** * Properties *)

(** ** The form *)

Lemma formSchema_nonempty (values : string) :
  ChatWidgetForm.formSchema values = true <-> values <> "".
Proof.
  unfold ChatWidgetForm.formSchema.
  destruct values as [|a rest]; simpl; split; intro H; congruence.
Qed.

Lemma handleEnterPressed_idle (values : string) :
  values <> "" ->
  ChatWidgetForm.handleEnterPressed false values = ("", Some values).
Proof.
  intro H. apply formSchema_nonempty in H.
  unfold ChatWidgetForm.handleEnterPressed, ChatWidgetForm.form_handleSubmit,
    ChatWidgetForm.handleSubmit.
  simpl. now rewrite H.
Qed.

(** ** The byte-stream variant *)

Section StreamingFacts.

Import Streaming.

Variable decode : list Byte.byte -> string.

Lemma run_app (c : Config) (xs ys : list Input) :
  run decode c (xs ++ ys) =
  match run decode c xs with
  | Some c' => run decode c' ys
  | None => None
  end.
Proof.
  revert c. induction xs as [|x xs IH]; intro c; simpl; [reflexivity|].
  destruct (step decode c x); [apply IH | reflexivity].
Qed.

(** Chunks are appended to the draft and to [aiMessage] in arrival order. *)
Lemma run_chunks (chunks : list (list Byte.byte)) :
  forall (h : Hook) (aiMessage : string) (out : list Request) (rest : list Input),
    run decode (mkConfig h (AwaitRead aiMessage) out)
      (map (fun value => Net (ReadChunk value)) chunks ++ rest) =
    run decode
      (mkConfig (mkHook (messages h) (draft decode chunks (currMessage h)) (isGenerating h))
         (AwaitRead (fold_left (fun acc value => (acc ++ decode value)%string) chunks aiMessage))
         out)
      rest.
Proof.
  induction chunks as [|value chunks IH]; intros h aiMessage out rest.
  - destruct h; reflexivity.
  - cbn [map app run step resume phase hook outbox].
    rewrite IH. reflexivity.
Qed.

(** A stream read to its end: the AI entry is the accumulated text, or the
    synthetic error when nothing was accumulated; the draft is reset and
    busy is cleared in the same transition. *)
Lemma end_of_stream_run
  (h : Hook) (out : list Request) (chunks : list (list Byte.byte)) :
  run decode (mkConfig h AwaitFetch out) (stream chunks EndOfStream) =
  Some (mkConfig
          (mkHook
             (messages h ++
              [mkMessage (if String.eqb (accumulate decode chunks) ""
                          then NO_RESPONSE
                          else accumulate decode chunks) AI None])
             DEFAULT_MESSAGE false)
          Idle out).
Proof.
  unfold stream.
  cbn [run step resume phase hook outbox].
  rewrite run_chunks.
  cbn [run step resume phase hook outbox].
  fold (accumulate decode chunks).
  destruct (String.eqb (accumulate decode chunks) ""); reflexivity.
Qed.

(** A stream cut by a read error: the [catch] block adds the error entry,
    [finally] clears busy, and the draft keeps what was accumulated. *)
Lemma read_error_run
  (h : Hook) (out : list Request) (chunks : list (list Byte.byte)) :
  run decode (mkConfig h AwaitFetch out) (stream chunks ReadError) =
  Some (mkConfig
          (mkHook (messages h ++ [mkMessage NO_RESPONSE AI None])
             (draft decode chunks (currMessage h)) false)
          Idle out).
Proof.
  unfold stream.
  cbn [run step resume phase hook outbox].
  rewrite run_chunks.
  reflexivity.
Qed.

Lemma enter_run (c : Config) (values : string) :
  phase c = Idle -> isGenerating (hook c) = false -> values <> "" ->
  step decode c (Enter values) =
  Some (mkConfig
          (mkHook (messages (hook c) ++ [mkMessage values USER None])
             (currMessage (hook c)) true)
          AwaitFetch
          (outbox c ++ [mkRequest "" (JObj [("query", JStr values)])])).
Proof.
  intros Hph Hbusy Hne.
  cbn [step]. rewrite Hbusy, (handleEnterPressed_idle _ Hne).
  cbn [snd submit]. rewrite Hph. reflexivity.
Qed.

(** One round trip from an idle, non-busy configuration. *)
Lemma roundTrip_run (c : Config) (t : string * Outcome) :
  phase c = Idle -> isGenerating (hook c) = false -> fst t <> "" ->
  exists c',
    run decode c (roundTrip t) = Some c' /\
    messages (hook c') = messages (hook c) ++ entries decode t /\
    phase c' = Idle /\ isGenerating (hook c') = false.
Proof.
  intros Hph Hbusy Hne.
  unfold roundTrip. cbn [run]. rewrite (enter_run _ _ Hph Hbusy Hne).
  destruct t as [values [|chunks [|]]]; cbn [fst snd] in *.
  - eexists. split; [reflexivity|].
    cbn. rewrite <- app_assoc. auto.
  - rewrite end_of_stream_run. eexists. split; [reflexivity|].
    cbn. rewrite <- app_assoc. auto.
  - rewrite read_error_run. eexists. split; [reflexivity|].
    cbn. rewrite <- app_assoc. auto.
Qed.

(** C9: in the byte-stream variant, a stream that ends with an empty
    accumulator ends the round trip as a failure, with the synthetic AI
    error entry appended and busy cleared; a stream that ends with a
    non-empty accumulator appends the accumulated text as the AI entry. *)
Theorem end_of_stream_empty_is_failure
  (h : Hook) (out : list Request) (chunks : list (list Byte.byte)) :
  exists h',
    run decode (mkConfig h AwaitFetch out) (stream chunks EndOfStream) =
      Some (mkConfig h' Idle out) /\
    isGenerating h' = false /\
    currMessage h' = DEFAULT_MESSAGE /\
    (accumulate decode chunks = "" ->
     messages h' = messages h ++ [mkMessage NO_RESPONSE AI None]) /\
    (accumulate decode chunks <> "" ->
     messages h' = messages h ++ [mkMessage (accumulate decode chunks) AI None]).
Proof.
  eexists. split; [apply end_of_stream_run|].
  cbn [isGenerating currMessage messages].
  repeat split.
  - intros ->. reflexivity.
  - intro Hne. apply String.eqb_neq in Hne. rewrite Hne. reflexivity.
Qed.

(** A sequence of round trips, each from an idle, non-busy hook. *)
Lemma roundTrips_run (trips : list (string * Outcome)) :
  forall c : Config,
    phase c = Idle -> isGenerating (hook c) = false ->
    Forall (fun t => fst t <> "") trips ->
    exists c',
      run decode c (flat_map roundTrip trips) = Some c' /\
      messages (hook c') = messages (hook c) ++ flat_map (entries decode) trips /\
      List.length (messages (hook c')) =
        List.length (messages (hook c)) + 2 * List.length trips /\
      phase c' = Idle /\ isGenerating (hook c') = false.
Proof.
  induction trips as [|t trips IH]; intros c Hph Hbusy Hall.
  - exists c. cbn. rewrite app_nil_r. repeat split; auto; lia.
  - inversion Hall as [|? ? Hne Hrest]; subst.
    destruct (roundTrip_run c t Hph Hbusy Hne) as (c1 & Hrun1 & Hlog1 & Hph1 & Hbusy1).
    destruct (IH c1 Hph1 Hbusy1 Hrest) as (c2 & Hrun2 & Hlog2 & Hlen2 & Hph2 & Hbusy2).
    exists c2. cbn [flat_map]. rewrite run_app, Hrun1.
    repeat split; auto.
    + rewrite Hlog2, Hlog1, <- app_assoc. reflexivity.
    + rewrite Hlen2, Hlog1, length_app. cbn [entries List.length]. lia.
Qed.

(** *** What every reachable configuration satisfies *)

Lemma submit_in_flight_is_busy (c c' : Config) (submitted : option string) :
  in_flight_is_busy c -> submit c submitted = Some c' -> in_flight_is_busy c'.
Proof.
  intros Hinv. destruct submitted as [values|]; cbn [submit].
  - destruct (phase c); try discriminate.
    intros [= <-] _. reflexivity.
  - now intros [= <-].
Qed.

Lemma step_in_flight_is_busy (c c' : Config) (i : Input) :
  in_flight_is_busy c -> step decode c i = Some c' -> in_flight_is_busy c'.
Proof.
  intros Hinv. destruct i as [values|values|ev]; cbn [step].
  - apply submit_in_flight_is_busy, Hinv.
  - apply submit_in_flight_is_busy, Hinv.
  - unfold in_flight_is_busy in *.
    destruct (phase c) eqn:Hph, ev as [| [|] | | |]; cbn [resume];
      try discriminate; intros [= <-]; cbn; try congruence;
      intros _; apply Hinv; discriminate.
Qed.

Lemma run_in_flight_is_busy (inputs : list Input) :
  forall c c', in_flight_is_busy c -> run decode c inputs = Some c' ->
               in_flight_is_busy c'.
Proof.
  induction inputs as [|i inputs IH]; intros c c' Hinv; cbn [run].
  - now intros [= <-].
  - destruct (step decode c i) as [c1|] eqn:Hstep; [|discriminate].
    apply IH. eapply step_in_flight_is_busy; eassumption.
Qed.

(** The gate of the form keeps a second call from starting while one is
    suspended: an input from the form never leaves the model. *)
Lemma form_input_accepted (c : Config) (values : string) :
  in_flight_is_busy c ->
  step decode c (Enter values) <> None /\ step decode c (Click values) <> None.
Proof.
  intro Hinv. unfold in_flight_is_busy in Hinv. cbn [step].
  destruct (isGenerating (hook c)) eqn:Hbusy; cbn [ChatWidgetForm.handleEnterPressed
    ChatWidgetForm.clickSubmit negb snd submit].
  - split; discriminate.
  - assert (Hph : phase c = Idle).
    { destruct (phase c); auto; exfalso;
        (assert (false = true) by (apply Hinv; discriminate)); discriminate. }
    destruct (snd (ChatWidgetForm.form_handleSubmit values)); cbn [submit];
      rewrite ?Hph; split; discriminate.
Qed.

(** Where no read fails, the draft is written only between the first chunk
    and the end of the stream, so only while busy. *)
Lemma step_draft_only_in_stream (c c' : Config) (i : Input) :
  i <> Net ReadRejected ->
  draft_only_in_stream c -> step decode c i = Some c' -> draft_only_in_stream c'.
Proof.
  intros Hi Hinv. unfold draft_only_in_stream in *.
  destruct i as [values|values|ev]; cbn [step].
  - destruct (snd _); cbn [submit]; [|now intros [= <-]].
    destruct (phase c); try discriminate. intros [= <-]. exact Hinv.
  - destruct (snd _); cbn [submit]; [|now intros [= <-]].
    destruct (phase c); try discriminate. intros [= <-]. exact Hinv.
  - destruct (phase c) eqn:Hph, ev as [| [|] | | |]; cbn [resume];
      try discriminate; try congruence; intros [= <-]; cbn; auto.
Qed.

Lemma draft_only_while_busy (inputs : list Input) :
  forall c c',
    ~ In (Net ReadRejected) inputs ->
    in_flight_is_busy c -> draft_only_in_stream c ->
    run decode c inputs = Some c' ->
    text (currMessage (hook c')) <> "" -> isGenerating (hook c') = true.
Proof.
  induction inputs as [|i inputs IH]; intros c c' Hno Hbusy Hdraft; cbn [run].
  - intros [= <-] Htext.
    unfold draft_only_in_stream in Hdraft. unfold in_flight_is_busy in Hbusy.
    destruct (phase c) eqn:Hph.
    + rewrite Hdraft in Htext. now elim Htext.
    + rewrite Hdraft in Htext. now elim Htext.
    + apply Hbusy. discriminate.
  - destruct (step decode c i) as [c1|] eqn:Hstep; [|discriminate].
    apply IH.
    + intro Hin. apply Hno. now right.
    + eapply step_in_flight_is_busy; eassumption.
    + eapply step_draft_only_in_stream; try eassumption.
      intros ->. apply Hno. now left.
Qed.

End StreamingFacts.

Lemma start_in_flight_is_busy : Streaming.in_flight_is_busy Streaming.start.
Proof. intro H. now elim H. Qed.

Lemma start_draft_only_in_stream : Streaming.draft_only_in_stream Streaming.start.
Proof. reflexivity. Qed.

Lemma end_of_stream_empty_is_failure_witness :
  exists h',
    Streaming.run String.string_of_list_byte
      (Streaming.mkConfig
         (Streaming.mkHook [mkMessage "q" USER None] DEFAULT_MESSAGE true)
         Streaming.AwaitFetch [])
      (Streaming.stream [[Byte.x48; Byte.x65; Byte.x6c]; [Byte.x6c; Byte.x6f]]
         Streaming.EndOfStream) =
      Some (Streaming.mkConfig h' Streaming.Idle []) /\
    Streaming.messages h' = [mkMessage "q" USER None; mkMessage "Hello" AI None].
Proof.
  destruct (end_of_stream_empty_is_failure String.string_of_list_byte
              (Streaming.mkHook [mkMessage "q" USER None] DEFAULT_MESSAGE true) []
              [[Byte.x48; Byte.x65; Byte.x6c]; [Byte.x6c; Byte.x6f]])
    as (h' & Hrun & _ & _ & _ & Hlog).
  exists h'. split; [exact Hrun|].
  apply Hlog. vm_compute. discriminate.
Defined.

(** C4, as the spec words it, fails: a round trip whose request is rejected
    leaves two new entries in the log, the USER entry and the AI error
    entry, not one. *)
Lemma failed_round_trip_adds_two_entries :
  exists c',
    Streaming.run String.string_of_list_byte Streaming.start
      (Streaming.roundTrip ("q", Streaming.Rejected)) = Some c' /\
    Streaming.messages (Streaming.hook c') =
      [mkMessage "q" USER None; mkMessage NO_RESPONSE AI None] /\
    List.length (Streaming.messages (Streaming.hook c')) <>
      List.length (Streaming.messages (Streaming.hook Streaming.start)) + 1.
Proof.
  eexists. split; [reflexivity|]. split; [reflexivity|]. cbn. discriminate.
Qed.

(** C3 (the code departs from it): when a read fails after a chunk, the
    [catch] block appends the error entry and [finally] clears busy, but the
    draft is not reset: the round trip ends with the draft holding the
    decoded chunk while busy is false. *)
Theorem draft_left_after_read_error
  (decode : list Byte.byte -> string) (value : list Byte.byte) :
  Streaming.run decode Streaming.start
    [Streaming.Enter "q";
     Streaming.Net (Streaming.FetchResolved false);
     Streaming.Net (Streaming.ReadChunk value);
     Streaming.Net Streaming.ReadRejected] =
  Some (Streaming.mkConfig
          (Streaming.mkHook
             [mkMessage "q" USER None; mkMessage NO_RESPONSE AI None]
             (mkMessage (decode value) AI None)
             false)
          Streaming.Idle
          [mkRequest "" (JObj [("query", JStr "q")])]).
Proof. reflexivity. Qed.

(** The same trace with the bytes of "Hel": a draft that is not empty in a
    hook that is not busy. *)
Example stale_draft_Hel :
  exists c,
    Streaming.run String.string_of_list_byte Streaming.start
      [Streaming.Enter "q";
       Streaming.Net (Streaming.FetchResolved false);
       Streaming.Net (Streaming.ReadChunk [Byte.x48; Byte.x65; Byte.x6c]);
       Streaming.Net Streaming.ReadRejected] = Some c /\
    text (Streaming.currMessage (Streaming.hook c)) = "Hel" /\
    Streaming.isGenerating (Streaming.hook c) = false.
Proof. eexists. repeat split. Qed.

(** ** The dispatcher of inbound frames *)

Section DispatcherFacts.

Import UseWebSocket WS.

(** What a [chat_response] frame does to the hook. *)
Lemma onLastMessage_chat_response (frame : WebSocketMessage) (h : Hook) :
  type frame = "chat_response" ->
  onLastMessage (Some frame) h =
  mkHook (messages h ++ [mkMessage (content frame) AI None])
    (currMessage h) false
    (match browser_use_plan frame with
     | Some p => Some p
     | None => browserUsePlan h
     end).
Proof.
  intro Hty. unfold onLastMessage. rewrite Hty. cbn [String.eqb Ascii.eqb Bool.eqb].
  destruct (browser_use_plan frame); reflexivity.
Qed.

(** This variant never writes the draft. *)
Lemma onLastMessage_currMessage (m : option WebSocketMessage) (h : Hook) :
  currMessage (onLastMessage m h) = currMessage h.
Proof.
  unfold onLastMessage. destruct m as [frame|]; [|reflexivity].
  destruct (String.eqb (type frame) "chat_response").
  { destruct (browser_use_plan frame); reflexivity. }
  destruct (String.eqb (type frame) "browser_use_plan"); [reflexivity|].
  destruct (String.eqb (type frame) "error"); reflexivity.
Qed.

Lemma errorEffect_currMessage (before after : option string) (h : Hook) :
  currMessage (errorEffect before after h) = currMessage h.
Proof.
  unfold errorEffect, onError.
  destruct before as [e0|], after as [e|]; try reflexivity.
  destruct (String.eqb e0 e); reflexivity.
Qed.

Lemma sendMessage_currMessage (msg : string) (s : State) (h : Hook) :
  currMessage (fst (fst (fst (sendMessage msg s h)))) = currMessage h.
Proof.
  unfold sendMessage, sendChatMessage, UseWebSocket.sendMessage.
  destruct (isConnected s); [|reflexivity].
  destruct (socketRef s) as [[| | |]|]; reflexivity.
Qed.

Lemma generateBrowserUse_currMessage (d : string) (s : State) (h : Hook) :
  currMessage (fst (fst (fst (generateBrowserUse d s h)))) = currMessage h.
Proof.
  unfold generateBrowserUse, generateBrowserUseFunctions, UseWebSocket.sendMessage.
  destruct (isConnected s); [|reflexivity].
  destruct (socketRef s) as [[| | |]|]; reflexivity.
Qed.

Lemma call_currMessage (c c' : Config)
  (f : State -> Hook -> Hook * State * list Effect * Phase) :
  (forall s h, currMessage (fst (fst (fst (f s h)))) = currMessage h) ->
  call c f = Some c' -> currMessage (hook c') = currMessage (hook c).
Proof.
  intros Hf. unfold call. destruct (phase c); try discriminate.
  specialize (Hf (ws c) (hook c)).
  destruct (f (ws c) (hook c)) as [[[h s] effs] ph]. cbn [fst] in Hf.
  intros [= <-]. cbn [hook]. now rewrite errorEffect_currMessage.
Qed.

Lemma step_currMessage (c c' : Config) (i : Input) :
  step c i = Some c' -> currMessage (hook c') = currMessage (hook c).
Proof.
  destruct i as [values|values|d|ev|ev]; cbn [step].
  - destruct (snd _); cbn [submit]; [|now intros [= <-]].
    apply call_currMessage. intros; apply sendMessage_currMessage.
  - destruct (snd _); cbn [submit]; [|now intros [= <-]].
    apply call_currMessage. intros; apply sendMessage_currMessage.
  - apply call_currMessage. intros; apply generateBrowserUse_currMessage.
  - destruct (handle ev (ws c)) as [s effs]. intros [= <-]. cbn [hook].
    rewrite errorEffect_currMessage.
    destruct ev as [|[frame|]| |]; try reflexivity.
    apply onLastMessage_currMessage.
  - destruct (resume (phase c) ev (hook c)) as [[h ph]|] eqn:Hres; [|discriminate].
    intros [= <-]. cbn [hook].
    destruct (phase c), ev as [|[|]| |data|data]; cbn [resume] in Hres;
      try discriminate; injection Hres as <- _; try reflexivity.
    destruct (data_needs_more_info data); [reflexivity|].
    destruct (data_browser_use_plan data); reflexivity.
Qed.

Lemma draft_never_written (inputs : list Input) :
  forall c c', run c inputs = Some c' -> currMessage (hook c') = currMessage (hook c).
Proof.
  induction inputs as [|i inputs IH]; intros c c'; cbn [run].
  - now intros [= <-].
  - destruct (step c i) as [c1|] eqn:Hstep; [|discriminate].
    intro Hrun. rewrite (IH _ _ Hrun). eapply step_currMessage; eassumption.
Qed.

End DispatcherFacts.

(** C1, as the spec words it, fails: neither the dispatcher nor the atomic
    fallback carries [needs_more_info] onto the appended message.  With an
    empty history, ["hi"] sent and [{content: "hello", needs_more_info:
    false}] returned, the AI entry has no [needsMoreInfo], so the log is not
    the one the spec gives. *)
Lemma needs_more_info_not_carried :
  (exists h : Atomic.Hook,
      Atomic.resumes Atomic.AwaitFetch
        [Atomic.FetchResolved false;
         Atomic.JsonResolved (mkChatData "hello" false None)]
        (fst (Atomic.sendMessage "hi" Atomic.init)) = Some (h, Atomic.Idle) /\
      Atomic.messages h <>
        [mkMessage "hi" USER None; mkMessage "hello" AI (Some false)]) /\
  WS.messages
    (WS.onLastMessage
       (Some (UseWebSocket.mkFrame "chat_response" "hello" false None None ""))
       WS.init) <>
  [mkMessage "hello" AI (Some false)].
Proof.
  split.
  - eexists. split; [reflexivity|]. cbn. intro H. discriminate H.
  - cbn. intro H. discriminate H.
Qed.

(** C1, as amended: a [chat_response] frame appends [{text: content, sender:
    AI}], without [needsMoreInfo], replaces the plan when the frame carries
    one, clears busy and leaves the draft as it is; the draft is never
    written in this variant, so it is empty in every reachable state.  With
    an empty history, ["hi"] sent over the atomic fallback and [{content:
    "hello", needs_more_info: false}] returned, the final log is the USER
    entry ["hi"] and the AI entry ["hello"], neither with [needsMoreInfo],
    and busy is false. *)
Theorem chat_response_appends_reply :
  (forall (frame : UseWebSocket.WebSocketMessage) (h : WS.Hook),
      UseWebSocket.type frame = "chat_response" ->
      WS.onLastMessage (Some frame) h =
      WS.mkHook (WS.messages h ++ [mkMessage (UseWebSocket.content frame) AI None])
        (WS.currMessage h) false
        (match UseWebSocket.browser_use_plan frame with
         | Some p => Some p
         | None => WS.browserUsePlan h
         end)) /\
  (forall (inputs : list WS.Input) (c : WS.Config),
      WS.run WS.start inputs = Some c ->
      WS.currMessage (WS.hook c) = DEFAULT_MESSAGE) /\
  Atomic.resumes Atomic.AwaitFetch
    [Atomic.FetchResolved false; Atomic.JsonResolved (mkChatData "hello" false None)]
    (fst (Atomic.sendMessage "hi" Atomic.init)) =
  Some (Atomic.mkHook [mkMessage "hi" USER None; mkMessage "hello" AI None]
          DEFAULT_MESSAGE false, Atomic.Idle) /\
  WS.run WS.start
    [WS.Enter "hi"; WS.Net (WS.FetchResolved false);
     WS.Net (WS.ChatJson (mkChatData "hello" false None))] =
  Some (WS.mkConfig
          (WS.mkHook [mkMessage "hi" USER None; mkMessage "hello" AI None]
             DEFAULT_MESSAGE false None)
          (UseWebSocket.mkState false None None (Some CONNECTING))
          WS.Idle
          [NewWebSocket;
           Fetch (mkRequest "/chat/browser-use"
                    (JObj [("message", JStr "hi"); ("history", JArr [])]))]).
Proof.
  split; [exact onLastMessage_chat_response|].
  split; [|split; reflexivity].
  intros inputs c Hrun. apply draft_never_written in Hrun. exact Hrun.
Qed.

Lemma chat_response_appends_reply_witness :
  WS.onLastMessage
    (Some (UseWebSocket.mkFrame "chat_response" "hello" true None None ""))
    (WS.mkHook [mkMessage "hi" USER None] DEFAULT_MESSAGE true None) =
  WS.mkHook [mkMessage "hi" USER None; mkMessage "hello" AI None]
    DEFAULT_MESSAGE false None.
Proof.
  exact (proj1 chat_response_appends_reply
           (UseWebSocket.mkFrame "chat_response" "hello" true None None "")
           (WS.mkHook [mkMessage "hi" USER None] DEFAULT_MESSAGE true None)
           eq_refl).
Defined.

(** What a [browser_use_plan] frame does to the hook. *)
Lemma onLastMessage_browser_use_plan
  (frame : UseWebSocket.WebSocketMessage) (h : WS.Hook) :
  UseWebSocket.type frame = "browser_use_plan" ->
  WS.onLastMessage (Some frame) h =
  WS.mkHook (WS.messages h) (WS.currMessage h) false (UseWebSocket.plan frame).
Proof.
  intro Hty. unfold WS.onLastMessage. rewrite Hty. reflexivity.
Qed.

(** C8: a [chat_response] frame without [browser_use_plan] appends the
    reply, clears busy and leaves the plan as it was; one with a plan does the
    same and makes that plan, whole, the hook's plan; a [browser_use_plan]
    frame makes its [plan] the hook's plan, clears busy and appends nothing.
    In each case the log, the draft and the busy flag after the frame are
    given without reference to any plan: they are the same whatever plan the
    frame carries and whatever plan the hook held. *)
Theorem chat_response_plan
  (frame : UseWebSocket.WebSocketMessage) (h : WS.Hook) :
  (UseWebSocket.type frame = "chat_response" ->
   (UseWebSocket.browser_use_plan frame = None ->
    WS.onLastMessage (Some frame) h =
    WS.mkHook (WS.messages h ++ [mkMessage (UseWebSocket.content frame) AI None])
      (WS.currMessage h) false (WS.browserUsePlan h)) /\
   (forall p : Plan,
       UseWebSocket.browser_use_plan frame = Some p ->
       WS.onLastMessage (Some frame) h =
       WS.mkHook (WS.messages h ++ [mkMessage (UseWebSocket.content frame) AI None])
         (WS.currMessage h) false (Some p))) /\
  (UseWebSocket.type frame = "browser_use_plan" ->
   WS.onLastMessage (Some frame) h =
   WS.mkHook (WS.messages h) (WS.currMessage h) false (UseWebSocket.plan frame)) /\
  (UseWebSocket.type frame = "chat_response" \/
   UseWebSocket.type frame = "browser_use_plan" ->
   forall carried standalone current : option Plan,
     let frame' :=
       UseWebSocket.mkFrame (UseWebSocket.type frame) (UseWebSocket.content frame)
         (UseWebSocket.needs_more_info frame) carried standalone
         (UseWebSocket.message frame) in
     let h' := WS.setBrowserUsePlan current h in
     WS.messages (WS.onLastMessage (Some frame') h') =
       WS.messages (WS.onLastMessage (Some frame) h) /\
     WS.currMessage (WS.onLastMessage (Some frame') h') =
       WS.currMessage (WS.onLastMessage (Some frame) h) /\
     WS.isGenerating (WS.onLastMessage (Some frame') h') =
       WS.isGenerating (WS.onLastMessage (Some frame) h)).
Proof.
  split; [|split].
  - intro Hty. rewrite (onLastMessage_chat_response frame h Hty).
    split; [intros ->; reflexivity | intros p ->; reflexivity].
  - apply onLastMessage_browser_use_plan.
  - intros Hty carried standalone current. cbv zeta.
    destruct Hty as [Hty|Hty].
    + rewrite (onLastMessage_chat_response frame h Hty).
      rewrite onLastMessage_chat_response by exact Hty. repeat split.
    + rewrite (onLastMessage_browser_use_plan frame h Hty).
      rewrite onLastMessage_browser_use_plan by exact Hty. repeat split.
Qed.

Lemma chat_response_plan_witness :
  WS.onLastMessage
    (Some (UseWebSocket.mkFrame "chat_response" "ok" false
             (Some (mkPlan [mkFunction "go_to_url" [("url", JStr "a")] None] None None))
             None ""))
    (WS.mkHook [mkMessage "q" USER None] DEFAULT_MESSAGE true None) =
  WS.mkHook [mkMessage "q" USER None; mkMessage "ok" AI None] DEFAULT_MESSAGE false
    (Some (mkPlan [mkFunction "go_to_url" [("url", JStr "a")] None] None None)) /\
  WS.onLastMessage
    (Some (UseWebSocket.mkFrame "chat_response" "ok" false None None ""))
    (WS.mkHook [mkMessage "q" USER None] DEFAULT_MESSAGE true
       (Some (mkPlan [mkFunction "go_to_url" [("url", JStr "a")] None] None None))) =
  WS.mkHook [mkMessage "q" USER None; mkMessage "ok" AI None] DEFAULT_MESSAGE false
    (Some (mkPlan [mkFunction "go_to_url" [("url", JStr "a")] None] None None)) /\
  WS.onLastMessage
    (Some (UseWebSocket.mkFrame "browser_use_plan" "" false None
             (Some (mkPlan [mkFunction "click" [] None] None None)) ""))
    (WS.mkHook [mkMessage "q" USER None] DEFAULT_MESSAGE true
       (Some (mkPlan [mkFunction "go_to_url" [("url", JStr "a")] None] None None))) =
  WS.mkHook [mkMessage "q" USER None] DEFAULT_MESSAGE false
    (Some (mkPlan [mkFunction "click" [] None] None None)).
Proof.
  split; [|split].
  - exact (proj2 (proj1 (chat_response_plan
             (UseWebSocket.mkFrame "chat_response" "ok" false
                (Some (mkPlan [mkFunction "go_to_url" [("url", JStr "a")] None] None None))
                None "")
             (WS.mkHook [mkMessage "q" USER None] DEFAULT_MESSAGE true None))
             eq_refl) _ eq_refl).
  - exact (proj1 (proj1 (chat_response_plan
             (UseWebSocket.mkFrame "chat_response" "ok" false None None "")
             (WS.mkHook [mkMessage "q" USER None] DEFAULT_MESSAGE true
                (Some (mkPlan [mkFunction "go_to_url" [("url", JStr "a")] None] None None))))
             eq_refl) eq_refl).
  - exact (proj1 (proj2 (chat_response_plan
             (UseWebSocket.mkFrame "browser_use_plan" "" false None
                (Some (mkPlan [mkFunction "click" [] None] None None)) "")
             (WS.mkHook [mkMessage "q" USER None] DEFAULT_MESSAGE true
                (Some (mkPlan [mkFunction "go_to_url" [("url", JStr "a")] None] None None)))))
             eq_refl).
Defined.

(** ** The atomic fallback and [needs_more_info] *)

Lemma atomic_resume_flag (b1 b2 : bool) (ph : Atomic.Phase) (ev : Atomic.Event)
  (h : Atomic.Hook) :
  Atomic.resume ph (Atomic.with_flag b1 ev) h =
  Atomic.resume ph (Atomic.with_flag b2 ev) h.
Proof.
  destruct ph, ev as [|[|]| |data]; try reflexivity.
  destruct b1, b2; reflexivity.
Qed.

Lemma atomic_resumes_flag (b1 b2 : bool) (evs : list Atomic.Event) :
  forall (ph : Atomic.Phase) (h : Atomic.Hook),
    Atomic.resumes ph (map (Atomic.with_flag b1) evs) h =
    Atomic.resumes ph (map (Atomic.with_flag b2) evs) h.
Proof.
  induction evs as [|ev evs IH]; intros ph h; cbn [map Atomic.resumes].
  - reflexivity.
  - rewrite (atomic_resume_flag b1 b2).
    destruct (Atomic.resume ph (Atomic.with_flag b2 ev) h) as [[h' ph']|];
      [apply IH | reflexivity].
Qed.

(** With the reply typed as the wire format declares it ([content] a
    string), the state after a chat reply does not depend on
    [needs_more_info]: two runs of the atomic hook over replies that differ
    only in that flag end in the same hook and phase, either branch appends
    [{text: content, sender: AI}] without [needsMoreInfo], and in the HTTP
    fallback of the WebSocket variant the log, the draft and the busy flag
    after the reply are independent of the flag as well. *)
Theorem needs_more_info_not_observable :
  (forall (b1 b2 : bool) (message : string) (evs : list Atomic.Event) (h : Atomic.Hook),
      Atomic.resumes Atomic.AwaitFetch (map (Atomic.with_flag b1) evs)
        (fst (Atomic.sendMessage message h)) =
      Atomic.resumes Atomic.AwaitFetch (map (Atomic.with_flag b2) evs)
        (fst (Atomic.sendMessage message h))) /\
  (forall (data : ChatData) (h : Atomic.Hook),
      Atomic.resume Atomic.AwaitJson (Atomic.JsonResolved data) h =
      Some (Atomic.mkHook
              (Atomic.messages h ++ [mkMessage (data_content data) AI None])
              (Atomic.currMessage h) false,
            Atomic.Idle)) /\
  (forall (content : string) (p : option Plan) (b : bool) (h : WS.Hook),
      exists plan' : option Plan,
        WS.resume WS.SendAwaitJson (WS.ChatJson (mkChatData content b p)) h =
        Some (WS.mkHook (WS.messages h ++ [mkMessage content AI None])
                (WS.currMessage h) false plan',
              WS.Idle)).
Proof.
  split; [|split].
  - intros. apply atomic_resumes_flag.
  - intros data h. cbn [Atomic.resume].
    destruct (data_needs_more_info data); reflexivity.
  - intros content p b h. cbn [WS.resume data_needs_more_info data_content
      data_browser_use_plan].
    destruct b; [eexists; reflexivity|].
    destruct p; eexists; reflexivity.
Qed.

(** *** The reply as the code reads it *)

Section RawReply.

Import AtomicRaw.

Variable ToString : any -> string.

(** On replies that have the types of the wire format, and with a template
    literal that leaves a string as it is, the hook over raw replies does
    what [Atomic] does. *)
Lemma atomic_raw_agrees (ph : Atomic.Phase) (ev : Atomic.Event) (h : Atomic.Hook) :
  (forall s : string, ToString (Some (JStr s)) = s) ->
  resume ToString (ofPhase ph) (ofEvent ev) (ofHook h) =
  match Atomic.resume ph ev h with
  | Some (h', ph') => Some (ofHook h', ofPhase ph')
  | None => None
  end.
Proof.
  intro Hstr.
  destruct ph, ev as [|[|]| |data]; try reflexivity.
  - cbn. unfold ofHook. cbn. now rewrite map_app.
  - cbn. unfold ofHook. cbn. now rewrite map_app.
  - cbn [ofPhase ofEvent ofData resume Atomic.resume field lookup truthy].
    cbn [String.eqb Ascii.eqb Bool.eqb].
    destruct (data_needs_more_info data); cbn; unfold ofHook; cbn;
      rewrite map_app; cbn; unfold ofMessage; cbn [text sender];
      rewrite ?Hstr; reflexivity.
Qed.

(** Where [content] is a string, the flag is not observable, whatever else
    the reply holds. *)
Lemma raw_flag_not_observable_on_strings (data1 data2 : json) (s : string) (h : Hook) :
  (forall s : string, ToString (Some (JStr s)) = s) ->
  data1 <> JNull -> data2 <> JNull ->
  field "content" data1 = Some (JStr s) -> field "content" data2 = Some (JStr s) ->
  resume ToString AwaitJson (JsonResolved data1) h =
  resume ToString AwaitJson (JsonResolved data2) h.
Proof.
  intros Hstr Hn1 Hn2 Hc1 Hc2.
  assert (Hres : forall data, data <> JNull -> field "content" data = Some (JStr s) ->
                 resume ToString AwaitJson (JsonResolved data) h =
                 Some (finally_block
                         (setMessages (fun prev => prev ++ [mkEntry (Some (JStr s)) AI]) h),
                       Idle)).
  { intros data Hn Hc. destruct data; try congruence; cbn [resume];
      rewrite Hc, Hstr; destruct (truthy _); reflexivity. }
  now rewrite (Hres data1), (Hres data2).
Qed.

End RawReply.

(** C10 (the code departs from it): in the atomic variant the entry
    appended for a reply without [content] depends on [needs_more_info].
    With the flag set the entry holds [data.content] itself, which is
    [undefined]; with the flag false or absent it holds the string the
    template literal makes of [undefined].  The two logs differ, whatever
    that string is.  The HTTP fallback of the WebSocket variant appends
    [data.content] itself in both branches, so there the entry is the same
    for every reply and flag. *)
Theorem needs_more_info_observable_without_content
  (ToString : AtomicRaw.any -> string) (h : AtomicRaw.Hook) :
  AtomicRaw.resume ToString AtomicRaw.AwaitJson
    (AtomicRaw.JsonResolved (JObj [("needs_more_info", JBool true)])) h =
  Some (AtomicRaw.mkHook
          (AtomicRaw.messages h ++ [AtomicRaw.mkEntry None AI])
          (AtomicRaw.currMessage h) false,
        AtomicRaw.Idle) /\
  AtomicRaw.resume ToString AtomicRaw.AwaitJson
    (AtomicRaw.JsonResolved (JObj [("needs_more_info", JBool false)])) h =
  Some (AtomicRaw.mkHook
          (AtomicRaw.messages h ++
           [AtomicRaw.mkEntry (Some (JStr (ToString None))) AI])
          (AtomicRaw.currMessage h) false,
        AtomicRaw.Idle) /\
  AtomicRaw.resume ToString AtomicRaw.AwaitJson
    (AtomicRaw.JsonResolved (JObj [("needs_more_info", JBool true)])) h <>
  AtomicRaw.resume ToString AtomicRaw.AwaitJson
    (AtomicRaw.JsonResolved (JObj [("needs_more_info", JBool false)])) h /\
  (forall (fields : list (string * json)) (b1 b2 : json),
      AtomicRaw.fallbackEntry (JObj (fields ++ [("needs_more_info", b1)])) =
      AtomicRaw.mkEntry
        (AtomicRaw.field "content" (JObj (fields ++ [("needs_more_info", b1)]))) AI /\
      AtomicRaw.field "content" (JObj (fields ++ [("needs_more_info", b1)])) =
      AtomicRaw.field "content" (JObj (fields ++ [("needs_more_info", b2)]))).
Proof.
  split; [reflexivity|]. split; [reflexivity|]. split.
  - cbn. intro H. injection H as H.
    apply app_inv_head in H. discriminate H.
  - intros fields b1 b2. split.
    + unfold AtomicRaw.fallbackEntry. destruct (AtomicRaw.truthy _); reflexivity.
    + cbn [AtomicRaw.field].
      induction fields as [|[k v] fields IH]; cbn; [reflexivity|].
      now rewrite IH.
Qed.

(** ** The history on the wire *)

(** Over the socket the history is the log before the new entry, as
    [role]/[content] pairs. *)
Lemma socket_history_is_role_pairs (msg : string) (s : UseWebSocket.State) (h : WS.Hook) :
  UseWebSocket.isConnected s = true ->
  UseWebSocket.socketRef s = Some OPEN ->
  WS.sendMessage msg s h =
  (WS.mkHook (WS.messages h ++ [mkMessage msg USER None]) (WS.currMessage h) true
     (WS.browserUsePlan h),
   s,
   [SocketSend (JObj [("type", JStr "chat");
                      ("message", JStr msg);
                      ("history", JArr (map WS.role_pair (WS.messages h)))])],
   WS.Idle).
Proof.
  intros Hc Ho. unfold WS.sendMessage, UseWebSocket.sendChatMessage,
    UseWebSocket.sendMessage.
  rewrite Hc, Ho. reflexivity.
Qed.

(** C7 (the code departs from it): with the socket not connected and the
    log [hi (USER); hello (AI)], the request of the HTTP fallback carries the
    log itself as [history]: objects with [text] and [sender], the [Sender]
    values ["user"] and ["ai"] on the wire, not the [role]/[content] pairs
    that the socket path sends.  The atomic variant sends the same. *)
Theorem fallback_history_is_raw_log :
  let log := [mkMessage "hi" USER None; mkMessage "hello" AI None] in
  let raw := JArr [JObj [("text", JStr "hi"); ("sender", JStr "user")];
                   JObj [("text", JStr "hello"); ("sender", JStr "ai")]] in
  snd (fst (WS.sendMessage "next" UseWebSocket.init
              (WS.mkHook log DEFAULT_MESSAGE false None))) =
    [Fetch (mkRequest "/chat/browser-use"
              (JObj [("message", JStr "next"); ("history", raw)]))] /\
  snd (Atomic.sendMessage "next" (Atomic.mkHook log DEFAULT_MESSAGE false)) =
    mkRequest "/chat" (JObj [("message", JStr "next"); ("history", raw)]) /\
  raw <> JArr (map WS.role_pair log) /\
  JArr (map WS.role_pair log) =
    JArr [JObj [("role", JStr "user"); ("content", JStr "hi")];
          JObj [("role", JStr "assistant"); ("content", JStr "hello")]].
Proof.
  cbv zeta. split; [reflexivity|]. split; [reflexivity|].
  split; [|reflexivity]. cbn. intro H. discriminate H.
Qed.

(** ** Failures *)

(** C5 (the code departs from it): three failures that do not end with one
    AI error entry and busy cleared.  In the byte-stream variant and in the
    atomic variant a response without a body ends the round trip with the
    USER entry alone; in the WebSocket variant a rejected plan request
    leaves the log as it was; and a socket error while a chat frame is
    awaited adds the connection-error entry but leaves busy set, with no
    request sent over HTTP. *)
Theorem failures_without_error_entry (decode : list Byte.byte -> string) :
  Streaming.run decode Streaming.start
    [Streaming.Enter "q"; Streaming.Net (Streaming.FetchResolved true)] =
  Some (Streaming.mkConfig
          (Streaming.mkHook [mkMessage "q" USER None] DEFAULT_MESSAGE false)
          Streaming.Idle
          [mkRequest "" (JObj [("query", JStr "q")])]) /\
  Atomic.resumes Atomic.AwaitFetch [Atomic.FetchResolved true]
    (fst (Atomic.sendMessage "q" Atomic.init)) =
  Some (Atomic.mkHook [mkMessage "q" USER None] DEFAULT_MESSAGE false, Atomic.Idle) /\
  WS.run WS.start [WS.Generate "open the page"; WS.Net WS.FetchRejected] =
  Some (WS.mkConfig
          (WS.mkHook [] DEFAULT_MESSAGE false None)
          (UseWebSocket.mkState false None None (Some CONNECTING))
          WS.Idle
          [NewWebSocket;
           Fetch (mkRequest "/api/browser-use"
                    (JObj [("action_description", JStr "open the page")]))]) /\
  WS.run WS.start
    [WS.Socket Opened; WS.Enter "hi"; WS.Socket Errored; WS.Socket Closed] =
  Some (WS.mkConfig
          (WS.mkHook
             [mkMessage "hi" USER None;
              mkMessage "Connection error: WebSocket connection error. Falling back to HTTP."
                AI None]
             DEFAULT_MESSAGE true None)
          (UseWebSocket.mkState false None (Some "WebSocket connection error")
             (Some CLOSED))
          WS.Idle
          [NewWebSocket;
           SocketSend (JObj [("type", JStr "chat");
                             ("message", JStr "hi");
                             ("history", JArr [])])]).
Proof. repeat split. Qed.

(** ** Sending while busy *)

(** C2, as the spec words it, fails: the hook's [sendMessage] does not look
    at the busy flag.  Called on a busy hook it appends the USER entry and
    issues a request; over an open socket it sends a second frame. *)
Lemma sendMessage_while_busy :
  Streaming.sendMessage "again"
    (Streaming.mkHook [mkMessage "q" USER None] DEFAULT_MESSAGE true) =
  (Streaming.mkHook [mkMessage "q" USER None; mkMessage "again" USER None]
     DEFAULT_MESSAGE true,
   mkRequest "" (JObj [("query", JStr "again")])) /\
  fst (Streaming.sendMessage "again"
         (Streaming.mkHook [mkMessage "q" USER None] DEFAULT_MESSAGE true)) <>
  Streaming.mkHook [mkMessage "q" USER None] DEFAULT_MESSAGE true /\
  snd (fst (WS.sendMessage "again"
              (UseWebSocket.mkState true None None (Some OPEN))
              (WS.mkHook [mkMessage "q" USER None] DEFAULT_MESSAGE true None))) =
  [SocketSend (JObj [("type", JStr "chat");
                     ("message", JStr "again");
                     ("history", JArr [JObj [("role", JStr "user");
                                             ("content", JStr "q")]])])].
Proof.
  split; [reflexivity|]. split; [|reflexivity].
  cbn. intro H. discriminate H.
Qed.

(** C2, as amended: the guard is in the form, not in [sendMessage].  While
    [isGenerating] is true, Enter and the submit button do not call
    [onSubmit]: the configuration (log, draft, plan, busy flag, requests and
    frames sent) is left as it is, in the byte-stream variant and in the
    WebSocket variant.  With the form as the caller of the byte-stream hook,
    a submission made while a call is suspended is such a no-op, so at most
    one exchange is in flight. *)
Theorem form_gate_rejects_while_busy (values : string) :
  ChatWidgetForm.handleEnterPressed true values = (values, None) /\
  ChatWidgetForm.clickSubmit true values = (values, None) /\
  (forall (decode : list Byte.byte -> string) (c : Streaming.Config),
      Streaming.isGenerating (Streaming.hook c) = true ->
      Streaming.step decode c (Streaming.Enter values) = Some c /\
      Streaming.step decode c (Streaming.Click values) = Some c) /\
  (forall c : WS.Config,
      WS.isGenerating (WS.hook c) = true ->
      WS.step c (WS.Enter values) = Some c /\
      WS.step c (WS.Click values) = Some c) /\
  (forall (decode : list Byte.byte -> string) (inputs : list Streaming.Input)
          (c : Streaming.Config),
      Streaming.run decode Streaming.start inputs = Some c ->
      Streaming.phase c <> Streaming.Idle ->
      Streaming.step decode c (Streaming.Enter values) = Some c /\
      Streaming.step decode c (Streaming.Click values) = Some c).
Proof.
  assert (Hs : forall (decode : list Byte.byte -> string) (c : Streaming.Config),
             Streaming.isGenerating (Streaming.hook c) = true ->
             Streaming.step decode c (Streaming.Enter values) = Some c /\
             Streaming.step decode c (Streaming.Click values) = Some c).
  { intros decode c Hbusy. cbn [Streaming.step]. rewrite Hbusy. split; reflexivity. }
  split; [reflexivity|]. split; [reflexivity|]. split; [exact Hs|]. split.
  - intros c Hbusy. cbn [WS.step]. rewrite Hbusy. split; reflexivity.
  - intros decode inputs c Hrun Hph. apply Hs.
    exact (run_in_flight_is_busy decode inputs _ _ start_in_flight_is_busy Hrun Hph).
Qed.

Lemma form_gate_rejects_while_busy_witness :
  Streaming.step String.string_of_list_byte
    (Streaming.mkConfig
       (Streaming.mkHook [mkMessage "q" USER None] DEFAULT_MESSAGE true)
       Streaming.AwaitFetch
       [mkRequest "" (JObj [("query", JStr "q")])])
    (Streaming.Enter "again") =
  Some (Streaming.mkConfig
          (Streaming.mkHook [mkMessage "q" USER None] DEFAULT_MESSAGE true)
          Streaming.AwaitFetch
          [mkRequest "" (JObj [("query", JStr "q")])]).
Proof.
  exact (proj1 (proj1 (proj2 (proj2 (form_gate_rejects_while_busy "again")))
                  String.string_of_list_byte
                  (Streaming.mkConfig
                     (Streaming.mkHook [mkMessage "q" USER None] DEFAULT_MESSAGE true)
                     Streaming.AwaitFetch
                     [mkRequest "" (JObj [("query", JStr "q")])])
                  eq_refl)).
Defined.

(** ** Reconnection *)

Lemma reconnects_app (xs ys : list Effect) :
  reconnects (xs ++ ys) = reconnects xs ++ reconnects ys.
Proof. unfold reconnects. apply flat_map_app. Qed.

Lemma testpage_run_app (p : TestPage.Page) (xs ys : list TestPage.Input) :
  TestPage.run p (xs ++ ys) =
  match TestPage.run p xs with
  | Some p' => TestPage.run p' ys
  | None => None
  end.
Proof.
  revert p. induction xs as [|x xs IH]; intro p; simpl; [reflexivity|].
  destruct (TestPage.step p x); [apply IH | reflexivity].
Qed.

(** On the test page, with no timer pending, each close is followed by one
    reconnect: [n] closes, [n] timers of 5000 ms, none left pending. *)
Lemma closeAndFire_run (n : nat) :
  forall p : TestPage.Page,
    TestPage.timers p = [] ->
    exists p',
      TestPage.run p (TestPage.closeAndFire n) = Some p' /\
      TestPage.timers p' = [] /\
      reconnects (TestPage.effects p') =
        reconnects (TestPage.effects p) ++ repeat 5000 n.
Proof.
  induction n as [|n IH]; intros p Hp.
  - exists p. cbn. rewrite app_nil_r. auto.
  - unfold TestPage.closeAndFire. cbn [repeat List.concat].
    rewrite testpage_run_app.
    cbn [TestPage.run TestPage.step TestPage.on_close TestPage.setTimeout
           TestPage.setStatus TestPage.setSocket TestPage.timers
           TestPage.socket TestPage.connectionStatus TestPage.effects].
    rewrite Hp. cbn [app TestPage.runCallback TestPage.connectWebSocket
                       TestPage.socket TestPage.emit TestPage.setSocket
                       TestPage.timers TestPage.connectionStatus TestPage.effects].
    match goal with
    | |- context [TestPage.run ?q (List.concat _)] =>
        destruct (IH q eq_refl) as (p' & Hrun & Ht & Hre)
    end.
    exists p'. fold (TestPage.closeAndFire n). rewrite Hrun.
    split; [reflexivity|]. split; [exact Ht|].
    rewrite Hre. unfold TestPage.connectWebSocket, TestPage.emit, TestPage.setSocket.
    cbn [TestPage.effects TestPage.socket]. rewrite !reconnects_app.
    cbn. rewrite !app_nil_r, <- app_assoc. reflexivity.
Qed.

(** C6, as the spec words it, fails: the hook that owns the connection of
    the chat page schedules nothing when its socket closes.  After open and
    close the only effect ever asked for is the first socket: no timer, no
    second socket. *)
Lemma hook_schedules_no_reconnect :
  exists c : WS.Config,
    WS.run WS.start [WS.Socket Opened; WS.Socket Closed] = Some c /\
    WS.effects c = [NewWebSocket] /\
    reconnects (WS.effects c) <> [5000].
Proof.
  eexists. split; [reflexivity|]. split; [reflexivity|]. cbn. discriminate.
Qed.

(** C6, as amended: [useWebSocket] has no reconnection: no handler of the
    socket schedules a timer or opens a socket, and its clean-up closes the
    socket when it is open and does nothing else.  The test page is where a
    close schedules a reconnect: its close listener adds exactly one timer,
    [connectWebSocket] after 5000 ms; no input but the firing of a timer
    removes a pending timer (the page has no teardown); and with no timer
    pending, [n] closes each followed by its timer give [n] reconnects, for
    every [n]. *)
Theorem reconnect_on_test_page_only :
  (forall (ev : SocketEvent UseWebSocket.WebSocketMessage) (s : UseWebSocket.State),
      snd (UseWebSocket.handle ev s) = []) /\
  (forall s : UseWebSocket.State,
      snd (UseWebSocket.cleanup s) =
      match UseWebSocket.socketRef s with
      | Some OPEN => [SocketClose]
      | _ => []
      end) /\
  (forall p : TestPage.Page,
      TestPage.step p (TestPage.Socket Closed) =
      Some (TestPage.mkPage (Some CLOSED) "WebSocket: Disconnected"
              (TestPage.timers p ++ [(ConnectWebSocket, 5000)])
              (TestPage.effects p ++ [SetTimeout ConnectWebSocket 5000]))) /\
  (forall (p p' : TestPage.Page) (i : TestPage.Input),
      i <> TestPage.TimerFires ->
      TestPage.step p i = Some p' ->
      exists added, TestPage.timers p' = TestPage.timers p ++ added) /\
  (forall (n : nat) (p : TestPage.Page),
      TestPage.timers p = [] ->
      exists p',
        TestPage.run p (TestPage.closeAndFire n) = Some p' /\
        TestPage.timers p' = [] /\
        reconnects (TestPage.effects p') =
          reconnects (TestPage.effects p) ++ repeat 5000 n).
Proof.
  split; [|split; [|split; [|split]]].
  - intros [|[frame|]| |] s; reflexivity.
  - intros s. unfold UseWebSocket.cleanup.
    destruct (UseWebSocket.socketRef s) as [[| | |]|]; reflexivity.
  - intros p. reflexivity.
  - intros p p' i Hi.
    destruct i as [|[|parsed| |]|]; cbn [TestPage.step]; try congruence;
      intros [= <-].
    + exists []. unfold TestPage.connectWebSocket.
      destruct (TestPage.socket p); cbn; now rewrite app_nil_r.
    + exists []. cbn. now rewrite app_nil_r.
    + exists []. now rewrite app_nil_r.
    + exists []. cbn. now rewrite app_nil_r.
    + exists [(ConnectWebSocket, 5000)]. reflexivity.
  - exact closeAndFire_run.
Qed.

Lemma reconnect_on_test_page_only_witness :
  exists p',
    TestPage.run TestPage.init
      (TestPage.Load :: TestPage.Socket Opened :: TestPage.closeAndFire 3) = Some p' /\
    reconnects (TestPage.effects p') = [5000; 5000; 5000].
Proof.
  destruct (proj2 (proj2 (proj2 (proj2 reconnect_on_test_page_only))) 3
              (TestPage.on_open
                 (TestPage.setSocket OPEN (TestPage.connectWebSocket TestPage.init)))
              eq_refl)
    as (p' & Hrun & _ & Hre).
  exists p'. split; [exact Hrun | exact Hre].
Defined.

(** ** Round trips of the WebSocket variant *)

Section WSFacts.

Import UseWebSocket WS.

Lemma errorEffect_same (e : option string) (h : Hook) : errorEffect e e h = h.
Proof.
  destruct e as [e|]; cbn [errorEffect]; [|reflexivity].
  now rewrite String.eqb_refl.
Qed.

Lemma ws_run_app (c : Config) (xs ys : list Input) :
  run c (xs ++ ys) =
  match run c xs with
  | Some c' => run c' ys
  | None => None
  end.
Proof.
  revert c. induction xs as [|x xs IH]; intro c; simpl; [reflexivity|].
  destruct (step c x); [apply IH | reflexivity].
Qed.

Lemma fits_ext (s s' : State) (o : Outcome) :
  isConnected s' = isConnected s -> socketRef s' = socketRef s ->
  fits s o -> fits s' o.
Proof.
  intros Hc Hr. destruct o; cbn [fits]; rewrite Hc, ?Hr; auto.
Qed.

Lemma enter_over_socket (c : Config) (values : string) :
  phase c = Idle -> isGenerating (hook c) = false -> values <> "" ->
  isConnected (ws c) = true -> socketRef (ws c) = Some OPEN ->
  step c (Enter values) =
  Some (mkConfig
          (mkHook (messages (hook c) ++ [mkMessage values USER None])
             (currMessage (hook c)) true (browserUsePlan (hook c)))
          (ws c) Idle
          (effects c ++
           [SocketSend (JObj [("type", JStr "chat");
                              ("message", JStr values);
                              ("history", JArr (map role_pair (messages (hook c))))])])).
Proof.
  intros Hph Hbusy Hne Hc Ho.
  cbn [step]. rewrite Hbusy, (handleEnterPressed_idle _ Hne).
  cbn [snd submit]. unfold call. rewrite Hph.
  rewrite (socket_history_is_role_pairs values (ws c) (hook c) Hc Ho).
  now rewrite errorEffect_same.
Qed.

Lemma enter_over_http (c : Config) (values : string) :
  phase c = Idle -> isGenerating (hook c) = false -> values <> "" ->
  isConnected (ws c) = false ->
  step c (Enter values) =
  Some (mkConfig
          (mkHook (messages (hook c) ++ [mkMessage values USER None])
             (currMessage (hook c)) true (browserUsePlan (hook c)))
          (ws c) SendAwaitFetch
          (effects c ++
           [Fetch (mkRequest "/chat/browser-use"
                     (JObj [("message", JStr values);
                            ("history", JArr (map Message_json (messages (hook c))))]))])).
Proof.
  intros Hph Hbusy Hne Hc.
  cbn [step]. rewrite Hbusy, (handleEnterPressed_idle _ Hne).
  cbn [snd submit]. unfold call. rewrite Hph.
  unfold sendMessage. rewrite Hc.
  now rewrite errorEffect_same.
Qed.

(** One round trip from an idle, non-busy configuration. *)
Lemma ws_roundTrip_run (c : Config) (t : string * Outcome) :
  phase c = Idle -> isGenerating (hook c) = false ->
  fst t <> "" -> fits (ws c) (snd t) ->
  exists c',
    run c (roundTrip t) = Some c' /\
    messages (hook c') = messages (hook c) ++ entries t /\
    phase c' = Idle /\ isGenerating (hook c') = false /\
    isConnected (ws c') = isConnected (ws c) /\
    socketRef (ws c') = socketRef (ws c).
Proof.
  intros Hph Hbusy Hne Hfit.
  destruct t as [values o]. cbn [fst snd] in *.
  unfold roundTrip, entries. cbn [fst snd run].
  destruct o as [frame|data|f]; cbn [fits] in Hfit.
  - destruct Hfit as (Hc & Ho & Hty).
    rewrite (enter_over_socket _ _ Hph Hbusy Hne Hc Ho).
    cbn [completion run step handle onmessage ws hook phase effects].
    cbn [setLastMessage error lastMessage isConnected socketRef].
    rewrite errorEffect_same.
    eexists. split; [reflexivity|].
    cbn [hook ws phase isConnected socketRef reply].
    unfold onLastMessage.
    destruct Hty as [Hty|Hty]; rewrite Hty; cbn [String.eqb Ascii.eqb Bool.eqb].
    + destruct (browser_use_plan frame); cbn; rewrite <- app_assoc; auto.
    + cbn. rewrite <- app_assoc. auto.
  - rewrite (enter_over_http _ _ Hph Hbusy Hne Hfit).
    cbn [completion run step resume ws hook phase effects].
    eexists. split; [reflexivity|].
    cbn [hook ws phase reply].
    destruct (data_needs_more_info data); [|destruct (data_browser_use_plan data)];
      cbn; rewrite <- app_assoc; auto.
  - rewrite (enter_over_http _ _ Hph Hbusy Hne Hfit).
    destruct f; cbn [completion run step resume ws hook phase effects];
      (eexists; split; [reflexivity|]); cbn; rewrite <- app_assoc; auto.
Qed.

(** A sequence of round trips, each from an idle, non-busy hook. *)
Lemma ws_roundTrips_run (trips : list (string * Outcome)) :
  forall c : Config,
    phase c = Idle -> isGenerating (hook c) = false ->
    Forall (fun t => fst t <> "" /\ fits (ws c) (snd t)) trips ->
    exists c',
      run c (flat_map roundTrip trips) = Some c' /\
      messages (hook c') = messages (hook c) ++ flat_map entries trips /\
      phase c' = Idle /\ isGenerating (hook c') = false.
Proof.
  induction trips as [|t trips IH]; intros c Hph Hbusy Hall.
  - exists c. cbn. rewrite app_nil_r. auto.
  - inversion Hall as [|? ? [Hne Hfit] Hrest]; subst.
    destruct (ws_roundTrip_run c t Hph Hbusy Hne Hfit)
      as (c1 & Hrun1 & Hlog1 & Hph1 & Hbusy1 & Hc1 & Ho1).
    destruct (IH c1 Hph1 Hbusy1) as (c2 & Hrun2 & Hlog2 & Hph2 & Hbusy2).
    { eapply Forall_impl; [|exact Hrest].
      intros t' [Hne' Hfit']. split; [exact Hne'|].
      eapply fits_ext; eassumption. }
    exists c2. cbn [flat_map]. rewrite ws_run_app, Hrun1.
    repeat split; auto.
    rewrite Hlog2, Hlog1, <- app_assoc. reflexivity.
Qed.

End WSFacts.

(** C4, as amended: from an idle, non-busy hook, every round trip of a
    non-empty text grows the log by exactly two entries, the USER entry and
    then one AI entry, whether it succeeds or fails: the reply on success;
    on failure the error entry (the request or a read is rejected, the
    stream is empty, the reply is not JSON, or the service answers with an
    [error] frame).  A sequence of [n] such round trips grows the log by
    [2 * n] entries, in the byte-stream variant and in the WebSocket variant
    over either transport. *)
Theorem round_trips_grow_log_by_two :
  (forall (decode : list Byte.byte -> string)
          (trips : list (string * Streaming.Outcome)) (c : Streaming.Config),
      Streaming.phase c = Streaming.Idle ->
      Streaming.isGenerating (Streaming.hook c) = false ->
      Forall (fun t => fst t <> "") trips ->
      exists c',
        Streaming.run decode c (flat_map Streaming.roundTrip trips) = Some c' /\
        Streaming.messages (Streaming.hook c') =
          Streaming.messages (Streaming.hook c) ++
          flat_map (Streaming.entries decode) trips /\
        List.length (Streaming.messages (Streaming.hook c')) =
          List.length (Streaming.messages (Streaming.hook c)) + 2 * List.length trips /\
        Streaming.phase c' = Streaming.Idle /\
        Streaming.isGenerating (Streaming.hook c') = false) /\
  (forall (trips : list (string * WS.Outcome)) (c : WS.Config),
      WS.phase c = WS.Idle ->
      WS.isGenerating (WS.hook c) = false ->
      Forall (fun t => fst t <> "" /\ WS.fits (WS.ws c) (snd t)) trips ->
      exists c',
        WS.run c (flat_map WS.roundTrip trips) = Some c' /\
        WS.messages (WS.hook c') =
          WS.messages (WS.hook c) ++ flat_map WS.entries trips /\
        List.length (WS.messages (WS.hook c')) =
          List.length (WS.messages (WS.hook c)) + 2 * List.length trips /\
        WS.phase c' = WS.Idle /\
        WS.isGenerating (WS.hook c') = false).
Proof.
  split.
  - intros decode trips c Hph Hbusy Hall.
    exact (roundTrips_run decode trips c Hph Hbusy Hall).
  - intros trips c Hph Hbusy Hall.
    destruct (ws_roundTrips_run trips c Hph Hbusy Hall)
      as (c' & Hrun & Hlog & Hph' & Hbusy').
    exists c'. repeat split; auto.
    rewrite Hlog, length_app. f_equal.
    clear. induction trips as [|t trips IH]; [reflexivity|].
    cbn [flat_map WS.entries app List.length]. rewrite IH. lia.
Qed.

Lemma round_trips_grow_log_by_two_witness :
  (exists c',
      Streaming.run String.string_of_list_byte Streaming.start
        (flat_map Streaming.roundTrip
           [("hi", Streaming.Streamed [[Byte.x6f; Byte.x6b]] Streaming.EndOfStream);
            ("again", Streaming.Rejected)]) = Some c' /\
      List.length (Streaming.messages (Streaming.hook c')) = 4) /\
  (exists c',
      WS.run WS.start
        (flat_map WS.roundTrip
           [("hi", WS.HttpReply (mkChatData "hello" false None));
            ("again", WS.HttpFailure WS.NoBody)]) = Some c' /\
      List.length (WS.messages (WS.hook c')) = 4).
Proof.
  split.
  - destruct (proj1 round_trips_grow_log_by_two String.string_of_list_byte
                [("hi", Streaming.Streamed [[Byte.x6f; Byte.x6b]] Streaming.EndOfStream);
                 ("again", Streaming.Rejected)]
                Streaming.start eq_refl eq_refl)
      as (c' & Hrun & _ & Hlen & _).
    + repeat constructor; simpl; discriminate.
    + exists c'. split; [exact Hrun | exact Hlen].
  - destruct (proj2 round_trips_grow_log_by_two
                [("hi", WS.HttpReply (mkChatData "hello" false None));
                 ("again", WS.HttpFailure WS.NoBody)]
                WS.start eq_refl eq_refl)
      as (c' & Hrun & _ & Hlen & _).
    + repeat constructor; simpl; discriminate.
    + exists c'. split; [exact Hrun | exact Hlen].
Defined.

(** * Further properties of the code *)

(** ** Strings *)

Lemma string_app_assoc (a b c : string) :
  ((a ++ b) ++ c)%string = (a ++ (b ++ c))%string.
Proof. induction a as [|x a IH]; cbn; [reflexivity | now rewrite IH]. Qed.

Lemma string_app_nil_r (a : string) : (a ++ "")%string = a.
Proof. induction a as [|x a IH]; cbn; [reflexivity | now rewrite IH]. Qed.

Lemma string_app_empty (a b : string) : (a ++ b)%string = "" -> a = "" /\ b = "".
Proof. destruct a; cbn; [auto | discriminate]. Qed.

(** ** The form, as a whole *)

Lemma clickSubmit_is_handleEnterPressed (g : bool) (values : string) :
  ChatWidgetForm.clickSubmit g values = ChatWidgetForm.handleEnterPressed g values.
Proof. destruct g; reflexivity. Qed.

Lemma handleEnterPressed_cases (g : bool) (values : string) :
  (g = false /\ values <> "" /\
   ChatWidgetForm.handleEnterPressed g values = ("", Some values)) \/
  ((g = true \/ values = "") /\
   ChatWidgetForm.handleEnterPressed g values = (values, None)).
Proof.
  destruct g.
  - right. split; [now left | reflexivity].
  - destruct values as [|a rest].
    + right. split; [now right | reflexivity].
    + left. split; [reflexivity|]. split; [discriminate | reflexivity].
Qed.

(** X1: the form calls [onSubmit] exactly when it is not generating and
    the text is not empty, then with the text as typed and with the field
    reset; in every other case nothing is submitted and the field keeps its
    text.  Enter and the submit button behave alike. *)
Theorem form_submits_iff (g : bool) (values : string) :
  (forall x : string,
      snd (ChatWidgetForm.handleEnterPressed g values) = Some x <->
      g = false /\ values <> "" /\ x = values) /\
  (snd (ChatWidgetForm.handleEnterPressed g values) = None <->
   g = true \/ values = "") /\
  fst (ChatWidgetForm.handleEnterPressed g values) =
    match snd (ChatWidgetForm.handleEnterPressed g values) with
    | Some _ => ""
    | None => values
    end /\
  ChatWidgetForm.clickSubmit g values = ChatWidgetForm.handleEnterPressed g values.
Proof.
  split; [|split; [|split]].
  - intro x.
    destruct (handleEnterPressed_cases g values) as [(Hg & Hv & ->)|([Hg|Hv] & ->)];
      cbn [snd]; split.
    + intros [= <-]. auto.
    + intros (_ & _ & ->). reflexivity.
    + discriminate.
    + intros (Hg' & _). congruence.
    + discriminate.
    + intros (_ & Hv' & _). congruence.
  - destruct (handleEnterPressed_cases g values) as [(Hg & Hv & ->)|(H & ->)];
      cbn [snd]; split; auto.
    + discriminate.
    + intros [Hg'|Hv']; congruence.
  - destruct (handleEnterPressed_cases g values) as [(_ & _ & ->)|(_ & ->)];
      reflexivity.
  - apply clickSubmit_is_handleEnterPressed.
Qed.

(** ** The byte-stream variant: what every run keeps *)

Section StreamingInvariants.

Import Streaming.

Variable decode : list Byte.byte -> string.

(** What one input can do to a configuration. *)
Lemma step_inv (c c' : Config) (i : Input) :
  step decode c i = Some c' ->
  c' = c \/
  (exists values : string,
      values <> "" /\ phase c = Idle /\ isGenerating (hook c) = false /\
      c' = mkConfig (fst (sendMessage values (hook c))) AwaitFetch
             (outbox c ++ [snd (sendMessage values (hook c))])) \/
  (exists (ev : Event) (h : Hook) (ph : Phase),
      i = Net ev /\ resume decode (phase c) ev (hook c) = Some (h, ph) /\
      c' = mkConfig h ph (outbox c)).
Proof.
  destruct i as [values|values|ev]; cbn [step].
  - destruct (handleEnterPressed_cases (isGenerating (hook c)) values)
      as [(Hg & Hv & ->)|(_ & ->)]; cbn [snd submit].
    + destruct (phase c) eqn:Hph; try discriminate.
      intros [= <-]. right; left. exists values. auto.
    + intros [= <-]. now left.
  - rewrite clickSubmit_is_handleEnterPressed.
    destruct (handleEnterPressed_cases (isGenerating (hook c)) values)
      as [(Hg & Hv & ->)|(_ & ->)]; cbn [snd submit].
    + destruct (phase c) eqn:Hph; try discriminate.
      intros [= <-]. right; left. exists values. auto.
    + intros [= <-]. now left.
  - destruct (resume decode (phase c) ev (hook c)) as [[h ph]|] eqn:Hres;
      [|discriminate].
    intros [= <-]. right; right. exists ev, h, ph. auto.
Qed.

(** An invariant of the steps, under a condition on the inputs, is an
    invariant of the runs. *)
Lemma run_invariant (Q : Input -> Prop) (P : Config -> Prop) :
  (forall c c' i, Q i -> P c -> step decode c i = Some c' -> P c') ->
  forall inputs c c',
    Forall Q inputs -> P c -> run decode c inputs = Some c' -> P c'.
Proof.
  intros Hstep. induction inputs as [|i inputs IH]; intros c c' HQ HP; cbn [run].
  - now intros [= <-].
  - inversion HQ as [|? ? Hi Hrest]; subst.
    destruct (step decode c i) as [c1|] eqn:Hs; [|discriminate].
    apply IH; [exact Hrest|]. eapply Hstep; eassumption.
Qed.

Lemma Forall_True (inputs : list Input) : Forall (fun _ => True) inputs.
Proof. induction inputs; constructor; auto. Qed.

Lemma step_idle_not_busy (c c' : Config) (i : Input) :
  (phase c = Idle -> isGenerating (hook c) = false) ->
  step decode c i = Some c' ->
  phase c' = Idle -> isGenerating (hook c') = false.
Proof.
  intros Hinv Hstep.
  destruct (step_inv _ _ _ Hstep)
    as [->|[(values & _ & _ & _ & ->)|(ev & h & ph & _ & Hres & ->)]].
  - exact Hinv.
  - discriminate.
  - cbn [phase hook]. intros ->.
    destruct (phase c), ev as [|[|]| | |]; cbn [resume] in Hres;
      try discriminate; injection Hres as <-; reflexivity.
Qed.

(** X2: in the byte-stream variant under the chat box, busy is true exactly
    while a call of [sendMessage] is suspended: from the initial state, after
    any inputs, [isGenerating] is true iff the call is at one of its
    [await]s. *)
Theorem busy_iff_in_flight (inputs : list Input) (c : Config) :
  run decode start inputs = Some c ->
  (isGenerating (hook c) = true <-> phase c <> Idle).
Proof.
  intro Hrun. split.
  - intros Hbusy Hph.
    assert (isGenerating (hook c) = false); [|congruence].
    refine (run_invariant (fun _ => True)
              (fun c => phase c = Idle -> isGenerating (hook c) = false)
              _ inputs start c (Forall_True _) _ Hrun Hph).
    + intros c0 c1 i _. apply step_idle_not_busy.
    + reflexivity.
  - exact (run_in_flight_is_busy decode inputs _ _ start_in_flight_is_busy Hrun).
Qed.

(** X3: the log of the byte-stream variant is append-only: whatever the
    inputs, the log after a run is the log before it followed by new
    entries. *)
Theorem streaming_log_append_only (inputs : list Input) (c c' : Config) :
  run decode c inputs = Some c' ->
  exists added : list Message,
    messages (hook c') = messages (hook c) ++ added.
Proof.
  revert c. induction inputs as [|i inputs IH]; intro c; cbn [run].
  - intros [= <-]. exists []. now rewrite app_nil_r.
  - destruct (step decode c i) as [c1|] eqn:Hs; [|discriminate].
    intro Hrun. destruct (IH _ Hrun) as [added Hadd]. rewrite Hadd.
    destruct (step_inv _ _ _ Hs)
      as [->|[(values & _ & _ & _ & ->)|(ev & h & ph & _ & Hres & ->)]].
    + now exists added.
    + cbn. eexists. now rewrite <- app_assoc.
    + cbn [hook].
      destruct (phase c), ev as [|[|]| | |]; cbn [resume] in Hres;
        try discriminate; injection Hres as <- _; cbn;
        try (now exists added);
        try (eexists; now rewrite <- app_assoc).
      destruct (String.eqb aiMessage ""); cbn; eexists; now rewrite <- app_assoc.
Qed.

End StreamingInvariants.

Section StreamingLog.

Import Streaming.

Variable decode : list Byte.byte -> string.

Lemma accumulate_from (chunks : list (list Byte.byte)) :
  forall acc : string,
    fold_left (fun acc value => (acc ++ decode value)%string) chunks acc =
    (acc ++ fold_right String.append "" (map decode chunks))%string.
Proof.
  induction chunks as [|value chunks IH]; intro acc; cbn.
  - now rewrite string_app_nil_r.
  - rewrite IH. apply string_app_assoc.
Qed.

Lemma draft_from (chunks : list (list Byte.byte)) :
  forall m : Message,
    text (draft decode chunks m) =
    (text m ++ fold_right String.append "" (map decode chunks))%string /\
    sender (draft decode chunks m) = sender m.
Proof.
  induction chunks as [|value chunks IH]; intro m; cbn.
  - now rewrite string_app_nil_r.
  - destruct (IH (mkMessage (text m ++ decode value)%string (sender m) None))
      as [Ht Hs].
    unfold draft in Ht, Hs. rewrite Ht, Hs. cbn. split; [|reflexivity].
    apply string_app_assoc.
Qed.

(** X4: chunks are appended in arrival order.  While the stream is read,
    after the chunks [chunks] the draft is the draft before them followed by
    the decoded chunks in order, the accumulator likewise, and nothing else
    of the hook has changed; the accumulated text of a stream is the
    concatenation of its decoded chunks. *)
Theorem draft_concatenates_chunks
  (h : Hook) (aiMessage : string) (out : list Request)
  (chunks : list (list Byte.byte)) :
  let joined := fold_right String.append "" (map decode chunks) in
  accumulate decode chunks = joined /\
  exists m : Message,
    run decode (mkConfig h (AwaitRead aiMessage) out)
      (map (fun value => Net (ReadChunk value)) chunks) =
    Some (mkConfig (mkHook (messages h) m (isGenerating h))
            (AwaitRead (aiMessage ++ joined)%string) out) /\
    text m = (text (currMessage h) ++ joined)%string /\
    sender m = sender (currMessage h).
Proof.
  cbv zeta. split.
  - unfold accumulate. now rewrite accumulate_from.
  - exists (draft decode chunks (currMessage h)).
    split; [|apply draft_from].
    rewrite <- (app_nil_r (map _ chunks)), run_chunks, accumulate_from.
    reflexivity.
Qed.

Lemma step_draft_tracks (c c' : Config) (i : Input) :
  i <> Net ReadRejected ->
  draft_tracks c -> step decode c i = Some c' -> draft_tracks c'.
Proof.
  intros Hi Hinv Hstep. unfold draft_tracks in *.
  destruct (step_inv _ _ _ _ Hstep)
    as [->|[(values & _ & Hph & _ & ->)|(ev & h & ph & -> & Hres & ->)]].
  - exact Hinv.
  - rewrite Hph in Hinv. exact Hinv.
  - cbn [phase hook].
    destruct (phase c), ev as [|[|]| | |]; cbn [resume] in Hres;
      try discriminate; try congruence; injection Hres as <- <-; cbn; auto.
    rewrite Hinv. reflexivity.
Qed.

End StreamingLog.

Section StreamingReachable.

Import Streaming.

Variable decode : list Byte.byte -> string.

(** X5: where no read fails, the draft shown is the text accumulated so
    far: from the initial state, whenever the call is suspended at a read with
    accumulator [aiMessage], the draft is [{text: aiMessage, sender: AI}],
    and at every other point the draft is the empty default. *)
Theorem draft_is_accumulator (inputs : list Input) (c : Config) :
  ~ In (Net ReadRejected) inputs ->
  run decode start inputs = Some c ->
  match phase c with
  | AwaitRead aiMessage => currMessage (hook c) = mkMessage aiMessage AI None
  | _ => currMessage (hook c) = DEFAULT_MESSAGE
  end.
Proof.
  intros Hno Hrun.
  refine (run_invariant decode (fun i => i <> Net ReadRejected) draft_tracks
            _ inputs start c _ _ Hrun).
  - intros c0 c1 i. apply step_draft_tracks.
  - apply Forall_forall. intros i Hin ->. contradiction.
  - reflexivity.
Qed.

Lemma step_requests (c c' : Config) (i : Input) :
  map body (outbox c) =
    map (fun m => JObj [("query", JStr (text m))]) (userEntries (messages (hook c))) ->
  step decode c i = Some c' ->
  map body (outbox c') =
    map (fun m => JObj [("query", JStr (text m))]) (userEntries (messages (hook c'))).
Proof.
  intros Hinv Hstep. unfold userEntries in *.
  destruct (step_inv _ _ _ _ Hstep)
    as [->|[(values & _ & _ & _ & ->)|(ev & h & ph & _ & Hres & ->)]].
  - exact Hinv.
  - cbn. rewrite filter_app, !map_app, Hinv. reflexivity.
  - cbn [outbox hook]. rewrite Hinv.
    destruct (phase c), ev as [|[|]| | |]; cbn [resume] in Hres;
      try discriminate; injection Hres as <- _; cbn;
      try reflexivity;
      try (rewrite filter_app; cbn; now rewrite app_nil_r).
    destruct (String.eqb aiMessage ""); cbn; rewrite filter_app; cbn;
      now rewrite app_nil_r.
Qed.

(** X6: requests and USER entries go together: from the initial state, the
    bodies of the requests issued are, in order, [{query: text}] for the
    texts of the USER entries of the log, so each USER entry has exactly one
    request and no request is made without one; every request goes to the
    base URL itself. *)
Theorem requests_match_user_entries (inputs : list Input) (c : Config) :
  run decode start inputs = Some c ->
  map body (outbox c) =
    map (fun m => JObj [("query", JStr (text m))]) (userEntries (messages (hook c))) /\
  Forall (fun req => path req = "") (outbox c).
Proof.
  intro Hrun. split.
  - refine (run_invariant decode (fun _ => True)
              (fun c =>
                 map body (outbox c) =
                 map (fun m => JObj [("query", JStr (text m))])
                   (userEntries (messages (hook c))))
              _ inputs start c (Forall_True _) _ Hrun).
    + intros c0 c1 i _. apply step_requests.
    + reflexivity.
  - refine (run_invariant decode (fun _ => True)
              (fun c => Forall (fun req => path req = "") (outbox c))
              _ inputs start c (Forall_True _) _ Hrun).
    + intros c0 c1 i _ Hinv Hstep.
      destruct (step_inv _ _ _ _ Hstep)
        as [->|[(values & _ & _ & _ & ->)|(ev & h & ph & _ & _ & ->)]];
        [exact Hinv | | exact Hinv].
      cbn. apply Forall_app. split; [exact Hinv|]. repeat constructor.
    + constructor.
Qed.

(** X7: no entry of the log of the byte-stream variant has an empty text:
    the form submits no empty text, an empty reply is replaced by the error
    entry, and the error text is not empty. *)
Theorem no_empty_entry (inputs : list Input) (c : Config) :
  run decode start inputs = Some c ->
  Forall (fun m => text m <> "") (messages (hook c)).
Proof.
  intro Hrun.
  refine (run_invariant decode (fun _ => True)
            (fun c => Forall (fun m => text m <> "") (messages (hook c)))
            _ inputs start c (Forall_True _) _ Hrun).
  - intros c0 c1 i _ Hinv Hstep.
    destruct (step_inv _ _ _ _ Hstep)
      as [->|[(values & Hne & _ & _ & ->)|(ev & h & ph & _ & Hres & ->)]].
    + exact Hinv.
    + cbn. apply Forall_app. split; [exact Hinv|]. repeat constructor. exact Hne.
    + cbn [hook].
      destruct (phase c0), ev as [|[|]| | |]; cbn [resume] in Hres;
        try discriminate; injection Hres as <- _; cbn; try exact Hinv;
        try (apply Forall_app; split; [exact Hinv|]; repeat constructor; discriminate).
      destruct (String.eqb aiMessage "") eqn:E; cbn; apply Forall_app;
        (split; [exact Hinv|]); repeat constructor; cbn.
      * discriminate.
      * now apply String.eqb_neq.
  - constructor.
Qed.

End StreamingReachable.

Lemma busy_iff_in_flight_witness :
  exists c,
    Streaming.run String.string_of_list_byte Streaming.start
      [Streaming.Enter "q"; Streaming.Net (Streaming.FetchResolved false)] = Some c /\
    Streaming.isGenerating (Streaming.hook c) = true.
Proof.
  eexists. split; [reflexivity|].
  apply (busy_iff_in_flight String.string_of_list_byte
           [Streaming.Enter "q"; Streaming.Net (Streaming.FetchResolved false)]
           _ eq_refl).
  discriminate.
Defined.

Lemma streaming_log_append_only_witness :
  exists added,
    [mkMessage "q" USER None; mkMessage NO_RESPONSE AI None] =
    [mkMessage "q" USER None] ++ added.
Proof.
  exact (streaming_log_append_only String.string_of_list_byte
           [Streaming.Net Streaming.FetchRejected]
           (Streaming.mkConfig
              (Streaming.mkHook [mkMessage "q" USER None] DEFAULT_MESSAGE true)
              Streaming.AwaitFetch [])
           _ eq_refl).
Defined.

Lemma draft_is_accumulator_witness :
  Streaming.currMessage
    (Streaming.mkHook [mkMessage "q" USER None] (mkMessage "Hel" AI None) true) =
  mkMessage "Hel" AI None.
Proof.
  refine (draft_is_accumulator String.string_of_list_byte
            [Streaming.Enter "q"; Streaming.Net (Streaming.FetchResolved false);
             Streaming.Net (Streaming.ReadChunk [Byte.x48; Byte.x65; Byte.x6c])]
            (Streaming.mkConfig
               (Streaming.mkHook [mkMessage "q" USER None] (mkMessage "Hel" AI None) true)
               (Streaming.AwaitRead "Hel")
               [mkRequest "" (JObj [("query", JStr "q")])])
            _ eq_refl).
  cbn. intros [H|[H|[H|[]]]]; discriminate H.
Defined.

Lemma requests_match_user_entries_witness :
  map body [mkRequest "" (JObj [("query", JStr "q")])] =
  map (fun m => JObj [("query", JStr (text m))])
    (Streaming.userEntries [mkMessage "q" USER None; mkMessage NO_RESPONSE AI None]).
Proof.
  exact (proj1 (requests_match_user_entries String.string_of_list_byte
                  [Streaming.Enter "q"; Streaming.Net Streaming.FetchRejected]
                  _ eq_refl)).
Defined.

Lemma no_empty_entry_witness :
  Forall (fun m => text m <> "")
    [mkMessage "q" USER None; mkMessage NO_RESPONSE AI None].
Proof.
  exact (no_empty_entry String.string_of_list_byte
           [Streaming.Enter "q"; Streaming.Net (Streaming.FetchResolved false);
            Streaming.Net Streaming.ReadDone]
           _ eq_refl).
Defined.

(** ** The chat box over the byte-stream variant *)

(** X8: what the chat box shows during a round trip, where no read fails:
    the log alone when no call is suspended; the log and the loading
    indicator from the submission until the first chunk that decodes to some
    text; from then on the log and the draft, whose text is what has been
    accumulated.  The indicator and the draft are never shown together. *)
Theorem view_of_round_trip
  (decode : list Byte.byte -> string)
  (inputs : list Streaming.Input) (c : Streaming.Config) :
  ~ In (Streaming.Net Streaming.ReadRejected) inputs ->
  Streaming.run decode Streaming.start inputs = Some c ->
  ChatBox.view (Streaming.hook c) =
  map ChatBox.renderMessage (Streaming.messages (Streaming.hook c)) ++
  match Streaming.phase c with
  | Streaming.Idle => []
  | Streaming.AwaitFetch => [ChatBox.FancyLoadingIndicator]
  | Streaming.AwaitRead aiMessage =>
      if String.eqb aiMessage "" then [ChatBox.FancyLoadingIndicator]
      else [ChatBox.ChatMessage (mkMessage aiMessage AI None) false]
  end.
Proof.
  intros Hno Hrun.
  assert (Hdraft : Streaming.draft_tracks c).
  { refine (run_invariant decode (fun i => i <> Streaming.Net Streaming.ReadRejected)
              Streaming.draft_tracks _ inputs Streaming.start c _ _ Hrun).
    - intros c0 c1 i. apply step_draft_tracks.
    - apply Forall_forall. intros i Hin ->. contradiction.
    - reflexivity. }
  assert (Hidle : Streaming.phase c = Streaming.Idle ->
                  Streaming.isGenerating (Streaming.hook c) = false).
  { refine (run_invariant decode (fun _ => True)
              (fun c => Streaming.phase c = Streaming.Idle ->
                        Streaming.isGenerating (Streaming.hook c) = false)
              _ inputs Streaming.start c (Forall_True _) _ Hrun).
    - intros c0 c1 i _. apply step_idle_not_busy.
    - reflexivity. }
  pose proof (run_in_flight_is_busy decode inputs _ _ start_in_flight_is_busy Hrun)
    as Hbusy.
  unfold Streaming.in_flight_is_busy in Hbusy.
  unfold Streaming.draft_tracks in Hdraft.
  unfold ChatBox.view, ChatBox.render.
  destruct (Streaming.phase c) as [| |aiMessage].
  - rewrite Hdraft, (Hidle eq_refl). reflexivity.
  - rewrite Hdraft, Hbusy by discriminate. reflexivity.
  - rewrite Hdraft, Hbusy by discriminate. cbn [text].
    destruct (String.eqb aiMessage ""); reflexivity.
Qed.

Lemma view_of_round_trip_witness :
  ChatBox.view
    (Streaming.mkHook [mkMessage "q" USER None] (mkMessage "Hel" AI None) true) =
  [ChatBox.ChatMessage (mkMessage "q" USER None) true;
   ChatBox.ChatMessage (mkMessage "Hel" AI None) false].
Proof.
  refine (view_of_round_trip String.string_of_list_byte
            [Streaming.Enter "q"; Streaming.Net (Streaming.FetchResolved false);
             Streaming.Net (Streaming.ReadChunk [Byte.x48; Byte.x65; Byte.x6c])]
            (Streaming.mkConfig
               (Streaming.mkHook [mkMessage "q" USER None] (mkMessage "Hel" AI None) true)
               (Streaming.AwaitRead "Hel")
               [mkRequest "" (JObj [("query", JStr "q")])])
            _ eq_refl).
  cbn. intros [H|[H|[H|[]]]]; discriminate H.
Defined.

(** ** The socket hook *)

(** X9: [getWebSocketUrl] swaps the scheme and appends the identifier: a
    base that starts with [http] has those four characters replaced by [ws],
    so [http://] becomes [ws://] and [https://] becomes [wss://], and the
    rest of the base, later occurrences of [http] included, is kept; a base
    that does not start with [http] is kept whole.  The URL always ends with
    [/ws/] and the identifier. *)
Theorem getWebSocketUrl_scheme (uuid : string) :
  (forall rest : string,
      UseWebSocket.getWebSocketUrl ("http" ++ rest) uuid =
      ("ws" ++ rest ++ "/ws/" ++ uuid)%string) /\
  (forall host : string,
      UseWebSocket.getWebSocketUrl ("https://" ++ host) uuid =
      ("wss://" ++ host ++ "/ws/" ++ uuid)%string) /\
  (forall base : string,
      String.prefix "http" base = false ->
      UseWebSocket.getWebSocketUrl base uuid = (base ++ "/ws/" ++ uuid)%string).
Proof.
  split; [|split].
  - intro rest. reflexivity.
  - intro host. reflexivity.
  - intros base Hpre. unfold UseWebSocket.getWebSocketUrl. f_equal.
    unfold UseWebSocket.replace_http.
    destruct base as [|a base]; [reflexivity|].
    destruct (Ascii.ascii_dec "h" a) as [<-|Ha];
      [|destruct a as [[] [] [] [] [] [] [] []]; try reflexivity; congruence].
    destruct base as [|b base]; [reflexivity|].
    destruct (Ascii.ascii_dec "t" b) as [<-|Hb];
      [|destruct b as [[] [] [] [] [] [] [] []]; try reflexivity; congruence].
    destruct base as [|c base]; [reflexivity|].
    destruct (Ascii.ascii_dec "t" c) as [<-|Hc];
      [|destruct c as [[] [] [] [] [] [] [] []]; try reflexivity; congruence].
    destruct base as [|d base]; [reflexivity|].
    destruct (Ascii.ascii_dec "p" d) as [<-|Hd];
      [|destruct d as [[] [] [] [] [] [] [] []]; try reflexivity; congruence].
    cbn in Hpre. destruct base; discriminate Hpre.
Qed.

Lemma getWebSocketUrl_scheme_witness :
  UseWebSocket.getWebSocketUrl "/api" "42" = "/api/ws/42".
Proof.
  exact (proj2 (proj2 (getWebSocketUrl_scheme "42")) "/api" eq_refl).
Defined.



(** ** The dispatcher, frame by frame *)

Section DispatcherMore.

Import UseWebSocket WS.

Lemma onLastMessage_other (frame : WebSocketMessage) (h : Hook) :
  type frame <> "chat_response" -> type frame <> "browser_use_plan" ->
  type frame <> "error" ->
  onLastMessage (Some frame) h = h.
Proof.
  intros H1 H2 H3. unfold onLastMessage.
  apply String.eqb_neq in H1, H2, H3. now rewrite H1, H2, H3.
Qed.

(** X11: a frame of an unknown type changes nothing but [lastMessage]: the
    dispatcher returns the hook as it was, and on the chat page the log, the
    draft, the busy flag, the plan, the suspended call, the connection and
    the effects are all as before the frame. *)
Theorem unknown_frame_ignored (frame : WebSocketMessage) (c : Config) :
  type frame <> "chat_response" -> type frame <> "browser_use_plan" ->
  type frame <> "error" ->
  onLastMessage (Some frame) (hook c) = hook c /\
  step c (Socket (Received (Some frame))) =
  Some (mkConfig (hook c) (setLastMessage (Some frame) (ws c)) (phase c) (effects c)).
Proof.
  intros H1 H2 H3. split; [now apply onLastMessage_other|].
  cbn [step handle onmessage]. cbn [setLastMessage lastMessage error].
  rewrite onLastMessage_other by assumption.
  rewrite errorEffect_same, app_nil_r. reflexivity.
Qed.

(** X12: whatever the frame, the dispatcher only appends, and what it
    appends and clears goes by the frame's type.  The log after it is the log
    before it followed by at most one entry, AI-authored and without
    [needsMoreInfo], and the draft is not touched.  A [chat_response] frame
    adds the reply, an [error] frame adds [Error: ] and its message and keeps
    the plan, a [browser_use_plan] frame adds nothing, and each of the three
    clears busy; with no frame, or a frame of any other type, the hook is
    left as it was. *)
Theorem dispatcher_appends_at_most_one (m : option WebSocketMessage) (h : Hook) :
  exists added : list Message,
    messages (onLastMessage m h) = messages h ++ added /\
    List.length added <= 1 /\
    Forall (fun e => sender e = AI /\ needsMoreInfo e = None) added /\
    currMessage (onLastMessage m h) = currMessage h /\
    (forall frame : WebSocketMessage,
        m = Some frame -> type frame = "chat_response" ->
        added = [mkMessage (content frame) AI None] /\
        isGenerating (onLastMessage m h) = false) /\
    (forall frame : WebSocketMessage,
        m = Some frame -> type frame = "error" ->
        added = [mkMessage ("Error: " ++ message frame)%string AI None] /\
        isGenerating (onLastMessage m h) = false /\
        browserUsePlan (onLastMessage m h) = browserUsePlan h) /\
    (forall frame : WebSocketMessage,
        m = Some frame -> type frame = "browser_use_plan" ->
        added = [] /\ isGenerating (onLastMessage m h) = false) /\
    ((m = None \/
      exists frame : WebSocketMessage,
        m = Some frame /\ type frame <> "chat_response" /\
        type frame <> "browser_use_plan" /\ type frame <> "error") ->
     added = [] /\ onLastMessage m h = h).
Proof.
  destruct m as [frame|].
  2:{ exists []. cbn. rewrite app_nil_r. repeat split; auto; try discriminate.
      all: intros frame H; discriminate H. }
  unfold onLastMessage.
  destruct (String.eqb (type frame) "chat_response") eqn:E1.
  { apply String.eqb_eq in E1.
    exists [mkMessage (content frame) AI None].
    destruct (browser_use_plan frame); cbn;
      (split; [reflexivity|]); (split; [auto|]);
      (split; [repeat constructor|]); (split; [reflexivity|]);
      (split; [intros f [= <-] _; auto|]);
      (split; [intros f [= <-] H; congruence|]);
      (split; [intros f [= <-] H; congruence|]);
      intros [H|(f & [= <-] & H & _)]; congruence. }
  destruct (String.eqb (type frame) "browser_use_plan") eqn:E2.
  { apply String.eqb_neq in E1. apply String.eqb_eq in E2.
    exists []. cbn. rewrite app_nil_r.
    (split; [reflexivity|]); (split; [auto|]);
    (split; [constructor|]); (split; [reflexivity|]);
    (split; [intros f [= <-] H; congruence|]);
    (split; [intros f [= <-] H; congruence|]);
    (split; [intros f [= <-] _; auto|]);
    intros [H|(f & [= <-] & _ & H & _)]; congruence. }
  destruct (String.eqb (type frame) "error") eqn:E3.
  { apply String.eqb_neq in E1, E2. apply String.eqb_eq in E3.
    exists [mkMessage ("Error: " ++ message frame)%string AI None]. cbn.
    (split; [reflexivity|]); (split; [auto|]);
    (split; [repeat constructor|]); (split; [reflexivity|]);
    (split; [intros f [= <-] H; congruence|]);
    (split; [intros f [= <-] _; auto|]);
    (split; [intros f [= <-] H; congruence|]);
    intros [H|(f & [= <-] & _ & _ & H)]; congruence. }
  apply String.eqb_neq in E1, E2, E3.
  exists []. rewrite app_nil_r.
  (split; [reflexivity|]); (split; [cbn; auto|]);
  (split; [constructor|]); (split; [reflexivity|]);
  (split; [intros f [= <-] H; congruence|]);
  (split; [intros f [= <-] H; congruence|]);
  (split; [intros f [= <-] H; congruence|]);
  intros _; auto.
Qed.

(** X13: a frame that does not parse is reported in the log once: when
    the recorded error is not already the parse error, the frame appends the
    entry [Connection error: Failed to parse message from server. Falling
    back to HTTP.] and leaves the busy flag, the plan, the suspended call,
    the connection and the effects as they were; a second such frame right
    after changes nothing at all. *)
Theorem parse_error_reported_once (c : Config) :
  error (ws c) <> Some "Failed to parse message from server" ->
  exists c1 : Config,
    step c (Socket (Received None)) = Some c1 /\
    messages (hook c1) =
      messages (hook c) ++
      [mkMessage
         "Connection error: Failed to parse message from server. Falling back to HTTP."
         AI None] /\
    isGenerating (hook c1) = isGenerating (hook c) /\
    browserUsePlan (hook c1) = browserUsePlan (hook c) /\
    phase c1 = phase c /\
    isConnected (ws c1) = isConnected (ws c) /\
    socketRef (ws c1) = socketRef (ws c) /\
    effects c1 = effects c /\
    step c1 (Socket (Received None)) = Some c1.
Proof.
  intro Herr. eexists. split; [reflexivity|].
  cbn [handle onmessage setError error fst snd hook ws phase effects
         isConnected socketRef lastMessage].
  rewrite app_nil_r.
  assert (He : errorEffect (error (ws c))
                 (Some "Failed to parse message from server") (hook c) =
               onError (Some "Failed to parse message from server") (hook c)).
  { unfold errorEffect. destruct (error (ws c)) as [e0|]; [|reflexivity].
    destruct (String.eqb e0 "Failed to parse message from server") eqn:E;
      [|reflexivity].
    apply String.eqb_eq in E. congruence. }
  rewrite He. cbn [onError setMessages messages isGenerating browserUsePlan].
  repeat split.
  cbn [step handle onmessage setError error fst snd hook ws phase effects
         isConnected socketRef lastMessage errorEffect].
  rewrite String.eqb_refl, app_nil_r. reflexivity.
Qed.

End DispatcherMore.

Lemma dispatcher_appends_at_most_one_witness :
  WS.isGenerating
    (WS.onLastMessage
       (Some (UseWebSocket.mkFrame "error" "" false None None "planner failed"))
       (WS.mkHook [mkMessage "q" USER None] DEFAULT_MESSAGE true None)) = false /\
  WS.messages
    (WS.onLastMessage
       (Some (UseWebSocket.mkFrame "error" "" false None None "planner failed"))
       (WS.mkHook [mkMessage "q" USER None] DEFAULT_MESSAGE true None)) =
  [mkMessage "q" USER None; mkMessage "Error: planner failed" AI None].
Proof.
  destruct (dispatcher_appends_at_most_one
              (Some (UseWebSocket.mkFrame "error" "" false None None "planner failed"))
              (WS.mkHook [mkMessage "q" USER None] DEFAULT_MESSAGE true None))
    as (added & Hlog & _ & _ & _ & _ & Herr & _).
  destruct (Herr _ eq_refl eq_refl) as (Hadd & Hbusy & _).
  split; [exact Hbusy|]. rewrite Hlog, Hadd. reflexivity.
Defined.

Lemma unknown_frame_ignored_witness :
  WS.onLastMessage
    (Some (UseWebSocket.mkFrame "unknown_kind" "" false None None ""))
    (WS.mkHook [mkMessage "q" USER None] DEFAULT_MESSAGE true None) =
  WS.mkHook [mkMessage "q" USER None] DEFAULT_MESSAGE true None.
Proof.
  refine (proj1 (unknown_frame_ignored
                   (UseWebSocket.mkFrame "unknown_kind" "" false None None "")
                   (WS.mkConfig
                      (WS.mkHook [mkMessage "q" USER None] DEFAULT_MESSAGE true None)
                      UseWebSocket.init WS.Idle [])
                   _ _ _)); discriminate.
Defined.

Lemma parse_error_reported_once_witness :
  exists c1 : WS.Config,
    WS.step WS.start (WS.Socket (Received None)) = Some c1 /\
    WS.step c1 (WS.Socket (Received None)) = Some c1.
Proof.
  destruct (parse_error_reported_once WS.start) as (c1 & H1 & H).
  - discriminate.
  - exists c1. split; [exact H1|]. apply H.
Defined.

(** ** The chat page: plans, transports and the log *)

Section PageFacts.

Import UseWebSocket WS.

(** X14: what a round trip of [generateBrowserUse] leaves behind.  From
    a page with no call suspended, the round trip ends with busy false, no
    call suspended and the draft untouched.  Over HTTP the log is never
    touched: a reply becomes the plan, and a request that is rejected, has no
    body or is not JSON leaves the plan as it was and no trace in the log.
    Over the open socket a [browser_use_plan] frame makes its [plan] the plan
    (none, if the frame has no [plan]) and adds nothing to the log, an
    [error] frame adds [Error: ] and its message and keeps the plan, and a
    [chat_response] frame adds its reply and replaces the plan if it carries
    one. *)
Theorem generate_round_trip (c : Config) (d : string) (o : PlanOutcome) :
  phase c = Idle -> planFits (ws c) o ->
  exists c' : Config,
    run c (Generate d :: planCompletion o) = Some c' /\
    messages (hook c') = messages (hook c) ++ planEntries o /\
    ((forall frame, o <> PlanOverSocket frame) ->
     messages (hook c') = messages (hook c)) /\
    currMessage (hook c') = currMessage (hook c) /\
    browserUsePlan (hook c') = planAfter o (browserUsePlan (hook c)) /\
    isGenerating (hook c') = false /\
    phase c' = Idle.
Proof.
  intros Hph Hfit. cbn [run step]. unfold call. rewrite Hph.
  unfold generateBrowserUse.
  destruct o as [frame|data|f]; cbn [planFits] in Hfit.
  - destruct Hfit as (Hc & Ho & Hty). rewrite Hc.
    unfold generateBrowserUseFunctions, UseWebSocket.sendMessage. rewrite Ho.
    rewrite errorEffect_same.
    cbn [planCompletion run step handle onmessage ws hook phase effects].
    cbn [setLastMessage error lastMessage]. rewrite errorEffect_same.
    eexists. split; [reflexivity|].
    split; [|split; [intro H; now elim (H frame)|]].
    + unfold onLastMessage, planEntries.
      destruct Hty as [Hty|[Hty|Hty]]; rewrite Hty; cbn;
        [now rewrite app_nil_r | reflexivity |].
      destruct (browser_use_plan frame); reflexivity.
    + unfold onLastMessage, planAfter.
      destruct Hty as [Hty|[Hty|Hty]]; rewrite Hty; cbn; auto.
      destruct (browser_use_plan frame); cbn; auto.
  - rewrite Hfit, errorEffect_same.
    eexists. split; [reflexivity|]. cbn. rewrite app_nil_r. auto 7.
  - rewrite Hfit, errorEffect_same.
    destruct f; (eexists; split; [reflexivity|]); cbn; rewrite app_nil_r; auto 7.
Qed.

(** X15: the transport follows the last connection event.  From a page
    that is idle and not busy, a non-empty text entered right after the
    socket opened goes over the socket, as one [chat] frame whose history is
    the log in [role]/[content] pairs, with no HTTP request; entered right
    after a socket error or close it goes over HTTP, as one request to
    [/chat/browser-use], with no frame sent. *)
Theorem transport_follows_connection (c : Config) (values : string) :
  phase c = Idle -> isGenerating (hook c) = false -> values <> "" ->
  (exists c' : Config,
      run c [Socket Opened; Enter values] = Some c' /\
      effects c' =
        effects c ++
        [SocketSend (JObj [("type", JStr "chat");
                           ("message", JStr values);
                           ("history", JArr (map role_pair (messages (hook c))))])] /\
      phase c' = Idle) /\
  (forall ev : SocketEvent WebSocketMessage,
      ev = Errored \/ ev = Closed ->
      exists (c' : Config) (history : json),
        run c [Socket ev; Enter values] = Some c' /\
        effects c' =
          effects c ++
          [Fetch (mkRequest "/chat/browser-use"
                    (JObj [("message", JStr values); ("history", history)]))] /\
        phase c' = SendAwaitFetch).
Proof.
  intros Hph Hbusy Hne. split.
  - assert (Hs : exists c1 : Config,
               step c (Socket Opened) = Some c1 /\
               hook c1 = hook c /\ phase c1 = phase c /\ effects c1 = effects c /\
               isConnected (ws c1) = true /\ socketRef (ws c1) = Some OPEN).
    { eexists. split; [reflexivity|]. cbn. rewrite app_nil_r.
      repeat split. unfold errorEffect. destruct (error (ws c)); reflexivity. }
    destruct Hs as (c1 & Hs & Hh & Hp & He & Hc & Ho).
    cbn [run]. rewrite Hs.
    rewrite (enter_over_socket c1 values); try congruence.
    eexists. split; [reflexivity|]. cbn [effects phase].
    rewrite Hh, He. auto.
  - intros ev Hev.
    assert (Hs : exists c1 : Config,
               step c (Socket ev) = Some c1 /\
               isGenerating (hook c1) = isGenerating (hook c) /\
               phase c1 = phase c /\ effects c1 = effects c /\
               isConnected (ws c1) = false).
    { destruct Hev as [-> | ->]; (eexists; split; [reflexivity|]); cbn;
        rewrite app_nil_r; repeat split.
      - unfold errorEffect, onError. destruct (error (ws c)) as [e0|];
          [destruct (String.eqb e0 "WebSocket connection error")|]; reflexivity.
      - now rewrite errorEffect_same. }
    destruct Hs as (c1 & Hs & Hg & Hp & He & Hc).
    cbn [run]. rewrite Hs.
    rewrite (enter_over_http c1 values); try congruence.
    eexists. eexists. split; [reflexivity|]. cbn [effects phase].
    rewrite He. auto.
Qed.

Lemma extends_refl (h : Hook) : extends h h.
Proof. exists []. rewrite app_nil_r. auto. Qed.

Lemma extends_trans (h1 h2 h3 : Hook) :
  extends h1 h2 -> extends h2 h3 -> extends h1 h3.
Proof.
  intros (a & Ha & Fa) (b & Hb & Fb). exists (a ++ b).
  rewrite Hb, Ha, app_assoc. split; [reflexivity|]. now apply Forall_app.
Qed.

Lemma extends_one (h h' : Hook) (e : Message) :
  messages h' = messages h ++ [e] -> needsMoreInfo e = None -> extends h h'.
Proof. intros Hm He. exists [e]. split; [exact Hm|]. now repeat constructor. Qed.

Lemma extends_same (h h' : Hook) : messages h' = messages h -> extends h h'.
Proof. intros Hm. exists []. rewrite app_nil_r. auto. Qed.

Lemma errorEffect_extends (before after : option string) (h : Hook) :
  extends h (errorEffect before after h).
Proof.
  unfold errorEffect, onError.
  destruct before as [e0|], after as [e|]; try apply extends_refl;
    try (eapply extends_one; reflexivity).
  destruct (String.eqb e0 e); [apply extends_refl | eapply extends_one; reflexivity].
Qed.

Lemma onLastMessage_extends (m : option WebSocketMessage) (h : Hook) :
  extends h (onLastMessage m h).
Proof.
  unfold onLastMessage. destruct m as [frame|]; [|apply extends_refl].
  destruct (String.eqb (type frame) "chat_response").
  { destruct (browser_use_plan frame); eapply extends_one; reflexivity. }
  destruct (String.eqb (type frame) "browser_use_plan"); [now apply extends_same|].
  destruct (String.eqb (type frame) "error");
    [eapply extends_one; reflexivity | apply extends_refl].
Qed.

Lemma call_extends (c c' : Config)
  (f : State -> Hook -> Hook * State * list Effect * Phase) :
  (forall s h, extends h (fst (fst (fst (f s h))))) ->
  call c f = Some c' -> extends (hook c) (hook c').
Proof.
  intros Hf. unfold call. destruct (phase c); try discriminate.
  specialize (Hf (ws c) (hook c)).
  destruct (f (ws c) (hook c)) as [[[h s] effs] ph]. cbn [fst] in Hf.
  intros [= <-]. cbn [hook].
  eapply extends_trans; [exact Hf | apply errorEffect_extends].
Qed.

Lemma sendMessage_extends (msg : string) (s : State) (h : Hook) :
  extends h (fst (fst (fst (sendMessage msg s h)))).
Proof.
  unfold sendMessage, sendChatMessage, UseWebSocket.sendMessage.
  destruct (isConnected s); [|eapply extends_one; reflexivity].
  destruct (socketRef s) as [[| | |]|]; eapply extends_one; reflexivity.
Qed.

Lemma generateBrowserUse_extends (d : string) (s : State) (h : Hook) :
  extends h (fst (fst (fst (generateBrowserUse d s h)))).
Proof.
  unfold generateBrowserUse, generateBrowserUseFunctions, UseWebSocket.sendMessage.
  destruct (isConnected s); [|now apply extends_same].
  destruct (socketRef s) as [[| | |]|]; now apply extends_same.
Qed.

Lemma step_extends (c c' : Config) (i : Input) :
  step c i = Some c' -> extends (hook c) (hook c').
Proof.
  destruct i as [values|values|d|ev|ev]; cbn [step].
  - destruct (snd _); cbn [submit]; [|intros [= <-]; apply extends_refl].
    apply call_extends. intros; apply sendMessage_extends.
  - destruct (snd _); cbn [submit]; [|intros [= <-]; apply extends_refl].
    apply call_extends. intros; apply sendMessage_extends.
  - apply call_extends. intros; apply generateBrowserUse_extends.
  - destruct (handle ev (ws c)) as [s effs]. intros [= <-]. cbn [hook].
    eapply extends_trans; [|apply errorEffect_extends].
    destruct ev as [|[frame|]| |]; try apply extends_refl.
    apply onLastMessage_extends.
  - destruct (resume (phase c) ev (hook c)) as [[h ph]|] eqn:Hres; [|discriminate].
    intros [= <-]. cbn [hook].
    destruct (phase c), ev as [|[|]| |data|data]; cbn [resume] in Hres;
      try discriminate; injection Hres as <- _;
      try apply extends_refl;
      try (eapply extends_one; reflexivity);
      try (now apply extends_same).
    destruct (data_needs_more_info data); [eapply extends_one; reflexivity|].
    destruct (data_browser_use_plan data); eapply extends_one; reflexivity.
Qed.

Lemma resume_extends (ph ph' : Phase) (ev : Event) (h h' : Hook) :
  resume ph ev h = Some (h', ph') -> extends h h'.
Proof.
  destruct ph, ev as [|[|]| |data|data]; cbn [resume]; try discriminate;
    intros [= <- _];
    try apply extends_refl;
    try (eapply extends_one; reflexivity);
    try (now apply extends_same).
  destruct (data_needs_more_info data); [eapply extends_one; reflexivity|].
  destruct (data_browser_use_plan data); eapply extends_one; reflexivity.
Qed.

Lemma resume_currMessage (ph ph' : Phase) (ev : Event) (h h' : Hook) :
  resume ph ev h = Some (h', ph') -> currMessage h' = currMessage h.
Proof.
  destruct ph, ev as [|[|]| |data|data]; cbn [resume]; try discriminate;
    intros [= <- _]; try reflexivity.
  destruct (data_needs_more_info data); [reflexivity|].
  destruct (data_browser_use_plan data); reflexivity.
Qed.

Lemma page_call_keeps (c : Page.Config)
  (f : State -> Hook -> Hook * State * list Effect * Phase) :
  (forall s h, extends h (fst (fst (fst (f s h))))) ->
  (forall s h, currMessage (fst (fst (fst (f s h)))) = currMessage h) ->
  extends (Page.hook c) (Page.hook (Page.call c f)) /\
  currMessage (Page.hook (Page.call c f)) = currMessage (Page.hook c).
Proof.
  intros Hext Hcur. unfold Page.call.
  specialize (Hext (Page.ws c) (Page.hook c)).
  specialize (Hcur (Page.ws c) (Page.hook c)).
  destruct (f (Page.ws c) (Page.hook c)) as [[[h s] effs] ph]. cbn [fst] in *.
  cbn [Page.hook]. split.
  - eapply extends_trans; [exact Hext | apply errorEffect_extends].
  - now rewrite errorEffect_currMessage.
Qed.

Lemma page_step_keeps (c c' : Page.Config) (i : Page.Input) :
  Page.step c i = Some c' ->
  extends (Page.hook c) (Page.hook c') /\
  currMessage (Page.hook c') = currMessage (Page.hook c).
Proof.
  destruct i as [values|values|d|ev|k ev]; cbn [Page.step].
  - intros [= <-]. destruct (snd _); cbn [Page.submit];
      [|split; [apply extends_refl | reflexivity]].
    apply page_call_keeps; intros;
      [apply sendMessage_extends | apply sendMessage_currMessage].
  - intros [= <-]. destruct (snd _); cbn [Page.submit];
      [|split; [apply extends_refl | reflexivity]].
    apply page_call_keeps; intros;
      [apply sendMessage_extends | apply sendMessage_currMessage].
  - intros [= <-].
    apply page_call_keeps; intros;
      [apply generateBrowserUse_extends | apply generateBrowserUse_currMessage].
  - destruct (handle ev (Page.ws c)) as [s effs]. intros [= <-]. cbn [Page.hook].
    rewrite errorEffect_currMessage. split.
    + eapply extends_trans; [|apply errorEffect_extends].
      destruct ev as [|[frame|]| |]; try apply extends_refl.
      apply onLastMessage_extends.
    + destruct ev as [|[frame|]| |]; try reflexivity.
      apply onLastMessage_currMessage.
  - destruct (nth_error (Page.pending c) k) as [ph|]; [|discriminate].
    destruct (resume ph ev (Page.hook c)) as [[h ph']|] eqn:Hres; [|discriminate].
    intros [= <-]. cbn [Page.hook]. split.
    + eapply resume_extends; eassumption.
    + eapply resume_currMessage; eassumption.
Qed.

(** The page with one suspended call is the page with overlapping calls
    restricted to the runs in which no call overlaps another. *)
Lemma page_step_simulates (c c' : Config) (i : Input) :
  step c i = Some c' ->
  Page.step (Page.ofConfig c) (Page.ofInput i) = Some (Page.ofConfig c').
Proof.
  assert (Hcall : forall f,
             call c f = Some c' ->
             Page.call (Page.ofConfig c) f = Page.ofConfig c').
  { intros f. unfold call, Page.call, Page.ofConfig. cbn [Page.ws Page.hook
      Page.pending Page.effects].
    destruct (phase c) eqn:Hph; try discriminate.
    destruct (f (ws c) (hook c)) as [[[h s] effs] ph].
    intros [= <-]. reflexivity. }
  destruct i as [values|values|d|ev|ev]; cbn [step Page.ofInput Page.step].
  - cbn [Page.ofConfig Page.hook].
    destruct (snd _); cbn [submit Page.submit].
    + intro H. now rewrite (Hcall _ H).
    + now intros [= <-].
  - cbn [Page.ofConfig Page.hook].
    destruct (snd _); cbn [submit Page.submit].
    + intro H. now rewrite (Hcall _ H).
    + now intros [= <-].
  - intro H. now rewrite (Hcall _ H).
  - cbn [Page.ofConfig Page.ws Page.hook Page.pending Page.effects].
    destruct (handle ev (ws c)) as [s effs]. now intros [= <-].
  - cbn [Page.ofConfig Page.ws Page.hook Page.pending Page.effects].
    destruct (resume (phase c) ev (hook c)) as [[h ph']|] eqn:Hres; [|discriminate].
    intros [= <-].
    destruct (phase c) eqn:Hph;
      try (destruct ev as [|[|]| | |]; discriminate Hres);
      cbn [Page.suspend app nth_error]; rewrite Hres;
      destruct ph'; reflexivity.
Qed.

Lemma page_run_simulates (inputs : list Input) :
  forall c c' : Config,
    run c inputs = Some c' ->
    Page.run (Page.ofConfig c) (map Page.ofInput inputs) = Some (Page.ofConfig c').
Proof.
  induction inputs as [|i inputs IH]; intros c c'; cbn [run map Page.run].
  - now intros [= <-].
  - destruct (step c i) as [c1|] eqn:Hs; [|discriminate].
    rewrite (page_step_simulates _ _ _ Hs). apply IH.
Qed.

(** X16: on the chat page the log is append-only, no entry is ever given
    [needsMoreInfo] and the draft is never written, overlapping calls
    included.  On the page where every submission, plan request and socket
    event is accepted, whether or not other calls are suspended, and each
    suspended call resumes with its own outcome, the log after any run is
    the log before it followed by new entries, each without [needsMoreInfo],
    and the draft is the draft before it. *)
Theorem page_log_append_only :
  (forall (inputs : list Page.Input) (c c' : Page.Config),
      Page.run c inputs = Some c' ->
      (exists added : list Message,
          messages (Page.hook c') = messages (Page.hook c) ++ added /\
          Forall (fun e => needsMoreInfo e = None) added) /\
      currMessage (Page.hook c') = currMessage (Page.hook c)) /\
  (forall (c : Page.Config) (i : Page.Input),
      (forall k ev, i <> Page.Net k ev) ->
      exists c' : Page.Config, Page.step c i = Some c').
Proof.
  split.
  - induction inputs as [|i inputs IH]; intros c c'; cbn [Page.run].
    + intros [= <-]. split; [apply extends_refl | reflexivity].
    + destruct (Page.step c i) as [c1|] eqn:Hs; [|discriminate].
      intro Hrun. destruct (page_step_keeps _ _ _ Hs) as [Hext Hcur].
      destruct (IH _ _ Hrun) as [Hext' Hcur']. split.
      * exact (extends_trans _ _ _ Hext Hext').
      * now rewrite Hcur', Hcur.
  - intros c i Hi. destruct i as [values|values|d|ev|k ev]; cbn [Page.step];
      try (eexists; reflexivity).
    + destruct (handle ev (Page.ws c)). eexists; reflexivity.
    + now elim (Hi k ev).
Qed.

End PageFacts.

Lemma generate_round_trip_witness :
  (exists c' : WS.Config,
      WS.run WS.start
        (WS.Generate "open the page" :: WS.planCompletion (WS.PlanFailure WS.BadJson)) =
        Some c' /\
      WS.messages (WS.hook c') = [] /\
      WS.isGenerating (WS.hook c') = false) /\
  (exists c' : WS.Config,
      WS.run
        (WS.mkConfig WS.init (UseWebSocket.mkState true None None (Some OPEN)) WS.Idle [])
        (WS.Generate "open the page"
         :: WS.planCompletion
              (WS.PlanOverSocket
                 (UseWebSocket.mkFrame "error" "" false None None "planner failed"))) =
        Some c' /\
      WS.messages (WS.hook c') = [mkMessage "Error: planner failed" AI None]).
Proof.
  split.
  - destruct (generate_round_trip WS.start "open the page" (WS.PlanFailure WS.BadJson)
                eq_refl eq_refl)
      as (c' & Hrun & _ & Hlog & _ & _ & Hbusy & _).
    exists c'. split; [exact Hrun|]. split; [|exact Hbusy].
    apply Hlog. intros frame H. discriminate H.
  - destruct (generate_round_trip
                (WS.mkConfig WS.init (UseWebSocket.mkState true None None (Some OPEN))
                   WS.Idle [])
                "open the page"
                (WS.PlanOverSocket
                   (UseWebSocket.mkFrame "error" "" false None None "planner failed"))
                eq_refl (conj eq_refl (conj eq_refl (or_intror (or_introl eq_refl)))))
      as (c' & Hrun & Hlog & _).
    exists c'. split; [exact Hrun | exact Hlog].
Defined.

Lemma transport_follows_connection_witness :
  exists c' : WS.Config,
    WS.run WS.start [WS.Socket Opened; WS.Enter "hi"] = Some c' /\
    WS.effects c' =
      [NewWebSocket;
       SocketSend (JObj [("type", JStr "chat");
                         ("message", JStr "hi");
                         ("history", JArr [])])].
Proof.
  destruct (proj1 (transport_follows_connection WS.start "hi" eq_refl eq_refl
                     ltac:(discriminate)))
    as (c' & Hrun & Heff & _).
  exists c'. split; [exact Hrun | exact Heff].
Defined.

Lemma page_log_append_only_witness :
  exists c' : Page.Config,
    Page.run Page.start
      [Page.Enter "a"; Page.Socket Opened;
       Page.Socket
         (Received (Some (UseWebSocket.mkFrame "error" "" false None None "busy")));
       Page.Enter "b"; Page.Generate "open the page";
       Page.Net 0 (WS.FetchResolved false);
       Page.Net 0 (WS.ChatJson (mkChatData "late" false None))] = Some c' /\
    exists added : list Message,
      WS.messages (Page.hook c') = [] ++ added /\
      Forall (fun e => needsMoreInfo e = None) added.
Proof.
  eexists. split; [reflexivity|].
  refine (proj1 (proj1 page_log_append_only
                   [Page.Enter "a"; Page.Socket Opened;
                    Page.Socket
                      (Received
                         (Some (UseWebSocket.mkFrame "error" "" false None None "busy")));
                    Page.Enter "b"; Page.Generate "open the page";
                    Page.Net 0 (WS.FetchResolved false);
                    Page.Net 0 (WS.ChatJson (mkChatData "late" false None))]
                   Page.start _ eq_refl)).
Defined.

(** ** The atomic variant: what the next request carries *)

(** X17: in the atomic variant the history of a request is the whole log
    at the time of the call, and the log keeps the error entries: after a
    round trip of [m1] answered by [data], the request for [m2] carries the
    earlier log, then [m1] and the reply, each as [{text, sender}]; after a
    round trip of [m1] whose request is rejected or whose reply is not JSON,
    the request for [m2] carries the synthetic error entry as an AI turn of
    the history. *)
Theorem atomic_history_accumulates (h : Atomic.Hook) (m1 m2 : string) :
  (forall data : ChatData,
      exists h1 : Atomic.Hook,
        Atomic.resumes Atomic.AwaitFetch
          [Atomic.FetchResolved false; Atomic.JsonResolved data]
          (fst (Atomic.sendMessage m1 h)) = Some (h1, Atomic.Idle) /\
        Atomic.isGenerating h1 = false /\
        snd (Atomic.sendMessage m2 h1) =
        mkRequest "/chat"
          (JObj [("message", JStr m2);
                 ("history",
                  JArr (map Message_json (Atomic.messages h) ++
                        [JObj [("text", JStr m1); ("sender", JStr "user")];
                         JObj [("text", JStr (data_content data));
                               ("sender", JStr "ai")]]))])) /\
  (forall evs : list Atomic.Event,
      evs = [Atomic.FetchRejected] \/
      evs = [Atomic.FetchResolved false; Atomic.JsonRejected] ->
      exists h1 : Atomic.Hook,
        Atomic.resumes Atomic.AwaitFetch evs (fst (Atomic.sendMessage m1 h)) =
          Some (h1, Atomic.Idle) /\
        Atomic.isGenerating h1 = false /\
        snd (Atomic.sendMessage m2 h1) =
        mkRequest "/chat"
          (JObj [("message", JStr m2);
                 ("history",
                  JArr (map Message_json (Atomic.messages h) ++
                        [JObj [("text", JStr m1); ("sender", JStr "user")];
                         JObj [("text", JStr NO_RESPONSE);
                               ("sender", JStr "ai")]]))])).
Proof.
  split.
  - intro data. cbn [Atomic.resumes Atomic.resume Atomic.sendMessage fst].
    destruct (data_needs_more_info data); eexists; (split; [reflexivity|]);
      (split; [reflexivity|]); cbn; rewrite <- app_assoc, map_app; reflexivity.
  - intros evs [-> | ->]; cbn [Atomic.resumes Atomic.resume Atomic.sendMessage fst];
      eexists; (split; [reflexivity|]); (split; [reflexivity|]); cbn;
      rewrite <- app_assoc, map_app; reflexivity.
Qed.

Lemma atomic_history_accumulates_witness :
  exists h1 : Atomic.Hook,
    Atomic.resumes Atomic.AwaitFetch [Atomic.FetchRejected]
      (fst (Atomic.sendMessage "hi" Atomic.init)) = Some (h1, Atomic.Idle) /\
    snd (Atomic.sendMessage "again" h1) =
    mkRequest "/chat"
      (JObj [("message", JStr "again");
             ("history",
              JArr [JObj [("text", JStr "hi"); ("sender", JStr "user")];
                    JObj [("text", JStr NO_RESPONSE); ("sender", JStr "ai")]])]).
Proof.
  destruct (proj2 (atomic_history_accumulates Atomic.init "hi" "again")
              [Atomic.FetchRejected] (or_introl eq_refl))
    as (h1 & Hrun & _ & Hreq).
  exists h1. split; [exact Hrun | exact Hreq].
Defined.

(** ** The two forms of a message on the wire *)

(** X18: both wire forms keep what they send.  The serialised log entry
    determines the message, absent [needsMoreInfo] included; the
    [role]/[content] pair determines the text and the sender; and the role is
    ["user"] or ["assistant"], never a value of the [Sender] enum other than
    ["user"]. *)
Theorem wire_forms_faithful (m1 m2 : Message) :
  (Message_json m1 = Message_json m2 -> m1 = m2) /\
  (WS.role_pair m1 = WS.role_pair m2 -> text m1 = text m2 /\ sender m1 = sender m2) /\
  (exists role : string,
      WS.role_pair m1 = JObj [("role", JStr role); ("content", JStr (text m1))] /\
      (role = "user" \/ role = "assistant") /\ role <> Sender_value AI).
Proof.
  destruct m1 as [t1 s1 n1], m2 as [t2 s2 n2]. split; [|split].
  - unfold Message_json. cbn [text sender needsMoreInfo].
    destruct s1, s2, n1 as [b1|], n2 as [b2|]; cbn; intro H;
      try discriminate H; injection H as ->; try subst; reflexivity.
  - unfold WS.role_pair. cbn [text sender].
    destruct s1, s2; intro H; try discriminate H; injection H as ->; auto.
  - unfold WS.role_pair. cbn [text sender].
    destruct s1; eexists; (split; [reflexivity|]); split; auto; discriminate.
Qed.

Lemma wire_forms_faithful_witness :
  text (mkMessage "hi" USER None) = text (mkMessage "hi" USER (Some true)) /\
  sender (mkMessage "hi" USER None) = sender (mkMessage "hi" USER (Some true)).
Proof.
  exact (proj1 (proj2 (wire_forms_faithful (mkMessage "hi" USER None)
                         (mkMessage "hi" USER (Some true)))) eq_refl).
Defined.

(** ** The send buttons of the test page *)

Section TestPageFormsFacts.

Import TestPageForms.

Variable trim : string -> string.

Lemma histories_app (xs ys : list json) :
  histories (xs ++ ys) = histories xs ++ histories ys.
Proof. unfold histories. apply flat_map_app. Qed.

Lemma maxSteps_app (xs ys : list json) :
  maxSteps (xs ++ ys) = maxSteps xs ++ maxSteps ys.
Proof. unfold maxSteps. apply flat_map_app. Qed.

(** What one input of the page does to the history and to the frames
    sent. *)
Lemma step_cases (p : Page) (i : Input) :
  (sent (step trim p i) = sent p /\
   exists added, chatHistory (step trim p i) = chatHistory p ++ added) \/
  (exists message : string,
      message <> "" /\ socket p = Some OPEN /\
      chatHistory (step trim p i) = chatHistory p ++ [history_entry "user" message] /\
      sent (step trim p i) =
        sent p ++ [JObj [("type", JStr "chat");
                         ("message", JStr message);
                         ("history",
                          JArr (chatHistory p ++ [history_entry "user" message]))]]) \/
  (exists (description : string) (n : Z),
      description <> "" /\ socket p = Some OPEN /\ n <> 0%Z /\
      chatHistory (step trim p i) = chatHistory p /\
      sent (step trim p i) =
        sent p ++ [JObj [("type", JStr "browser_use");
                         ("action_description", JStr description);
                         ("max_steps", JNum n)]]).
Proof.
  destruct i as [chatMessage|actionDescription parsed|data]; cbn [step].
  - unfold sendChat.
    destruct (String.eqb (trim chatMessage) "") eqn:E.
    { left. split; [reflexivity|]. exists []. cbn. now rewrite app_nil_r. }
    apply String.eqb_neq in E.
    destruct (socket p) as [[| | |]|] eqn:Hs;
      try (left; split; [reflexivity|]; exists []; cbn; now rewrite app_nil_r).
    right; left. exists (trim chatMessage). cbn. auto.
  - unfold sendAction.
    destruct (String.eqb (trim actionDescription) "") eqn:E.
    { left. split; [reflexivity|]. exists []. cbn. now rewrite app_nil_r. }
    apply String.eqb_neq in E.
    destruct (socket p) as [[| | |]|] eqn:Hs;
      try (left; split; [reflexivity|]; exists []; cbn; now rewrite app_nil_r).
    right; right. exists (trim actionDescription).
    eexists. split; [exact E|]. split; [reflexivity|].
    split; [|split; reflexivity].
    destruct parsed as [[|n|n]|]; discriminate.
  - left. unfold on_message.
    destruct (String.eqb (UseWebSocket.type data) "browser_use_plan").
    { split; [reflexivity|]. exists []. now rewrite app_nil_r. }
    destruct (String.eqb (UseWebSocket.type data) "chat_response").
    { split; [reflexivity|]. eexists. reflexivity. }
    split; [reflexivity|]. exists []. now rewrite app_nil_r.
Qed.

Lemma prefixes_grow (hs : list (list json)) (log added : list json) :
  Forall (fun h => exists rest, log = h ++ rest) hs ->
  Forall (fun h => exists rest, log ++ added = h ++ rest) hs.
Proof.
  intro H. eapply Forall_impl; [|exact H].
  intros h [rest ->]. exists (rest ++ added). now rewrite app_assoc.
Qed.

(** X19: on the test page the history of a chat frame includes the message
    it sends: with the socket open and some text left after trimming,
    [sendChat] first appends the user entry to [chatHistory] and then sends
    that whole history.  [chatHistory] only grows, so after any inputs every
    history sent so far is an initial part of the current [chatHistory]. *)
Theorem chat_history_carries_message (inputs : list Input) (p : Page) :
  (forall chatMessage : string,
      socket p = Some OPEN -> trim chatMessage <> "" ->
      chatHistory (sendChat trim chatMessage p) =
        chatHistory p ++ [history_entry "user" (trim chatMessage)] /\
      histories (sent (sendChat trim chatMessage p)) =
        histories (sent p) ++ [chatHistory (sendChat trim chatMessage p)]) /\
  (Forall (fun h => exists rest, chatHistory p = h ++ rest) (histories (sent p)) ->
   Forall (fun h => exists rest, chatHistory (run trim p inputs) = h ++ rest)
     (histories (sent (run trim p inputs)))).
Proof.
  split.
  - intros chatMessage Hs Hne. unfold sendChat.
    apply String.eqb_neq in Hne. rewrite Hne, Hs. cbn [chatHistory sent].
    split; [reflexivity|]. rewrite histories_app. reflexivity.
  - revert p. induction inputs as [|i inputs IH]; intros p Hinv; [exact Hinv|].
    cbn [run fold_left]. apply IH.
    destruct (step_cases p i)
      as [(Hsent & added & Hlog)
         |[(message & _ & _ & Hlog & Hsent)
          |(description & n & _ & _ & _ & Hlog & Hsent)]];
      rewrite Hsent, Hlog.
    + now apply prefixes_grow.
    + rewrite histories_app. apply Forall_app. split.
      * now apply prefixes_grow.
      * cbn. repeat constructor. exists []. now rewrite app_nil_r.
    + rewrite histories_app. cbn. now rewrite app_nil_r.
Qed.

(** X20: no action frame carries [max_steps] 0: when the field does not
    parse or parses to 0 the frame carries 10, and any other parsed value is
    sent as it is; so, over any inputs, if no frame sent so far has
    [max_steps] 0, none has afterwards. *)
Theorem max_steps_never_zero (inputs : list Input) (p : Page) :
  (forall actionDescription : string,
      socket p = Some OPEN -> trim actionDescription <> "" ->
      maxSteps (sent (sendAction trim actionDescription None p)) =
        maxSteps (sent p) ++ [10%Z] /\
      maxSteps (sent (sendAction trim actionDescription (Some 0%Z) p)) =
        maxSteps (sent p) ++ [10%Z] /\
      forall n : Z, n <> 0%Z ->
        maxSteps (sent (sendAction trim actionDescription (Some n) p)) =
          maxSteps (sent p) ++ [n]) /\
  (Forall (fun n => n <> 0%Z) (maxSteps (sent p)) ->
   Forall (fun n => n <> 0%Z) (maxSteps (sent (run trim p inputs)))).
Proof.
  split.
  - intros actionDescription Hs Hne. unfold sendAction.
    apply String.eqb_neq in Hne. rewrite Hne, Hs. cbn [sent].
    rewrite !maxSteps_app. repeat split.
    intros n Hn. rewrite maxSteps_app. destruct n; [congruence| |]; reflexivity.
  - revert p. induction inputs as [|i inputs IH]; intros p Hinv; [exact Hinv|].
    cbn [run fold_left]. apply IH.
    destruct (step_cases p i)
      as [(Hsent & _)
         |[(message & _ & _ & _ & Hsent)
          |(description & n & _ & _ & Hn & _ & Hsent)]];
      rewrite Hsent.
    + exact Hinv.
    + rewrite maxSteps_app. cbn. now rewrite app_nil_r.
    + rewrite maxSteps_app. apply Forall_app. split; [exact Hinv|].
      cbn. repeat constructor. exact Hn.
Qed.

Lemma sendChat_cases (text_ : string) (p : Page) :
  (socket p = Some OPEN /\ trim text_ <> "" /\
   exists frame, sent (sendChat trim text_ p) = sent p ++ [frame]) \/
  ((socket p <> Some OPEN \/ trim text_ = "") /\
   exists msg : string,
     sendChat trim text_ p =
       mkPage (socket p) (chatHistory p) (sent p) (alerts p ++ [msg])).
Proof.
  unfold sendChat.
  destruct (String.eqb (trim text_) "") eqn:E.
  - apply String.eqb_eq in E. right. split; [now right|]. eexists. reflexivity.
  - apply String.eqb_neq in E.
    destruct (socket p) as [[| | |]|] eqn:Hs;
      try (right; split; [left; discriminate|]; eexists; unfold alert;
           rewrite Hs; reflexivity).
    left. split; [reflexivity|]. split; [exact E|]. eexists. reflexivity.
Qed.

Lemma sendAction_cases (text_ : string) (parsed : option Z) (p : Page) :
  (socket p = Some OPEN /\ trim text_ <> "" /\
   exists frame, sent (sendAction trim text_ parsed p) = sent p ++ [frame]) \/
  ((socket p <> Some OPEN \/ trim text_ = "") /\
   exists msg : string,
     sendAction trim text_ parsed p =
       mkPage (socket p) (chatHistory p) (sent p) (alerts p ++ [msg])).
Proof.
  unfold sendAction.
  destruct (String.eqb (trim text_) "") eqn:E.
  - apply String.eqb_eq in E. right. split; [now right|]. eexists. reflexivity.
  - apply String.eqb_neq in E.
    destruct (socket p) as [[| | |]|] eqn:Hs;
      try (right; split; [left; discriminate|]; eexists; unfold alert;
           rewrite Hs; reflexivity).
    left. split; [reflexivity|]. split; [exact E|]. eexists. reflexivity.
Qed.

Lemma snoc_neq (l : list json) (x : json) : l ++ [x] <> l.
Proof.
  intro H. apply (f_equal (@List.length json)) in H.
  rewrite length_app in H. cbn in H. lia.
Qed.

(** X21: the send buttons send only over an open socket and only a text
    that is not blank: a frame is added to those sent exactly when the
    socket is OPEN and the trimmed text is not empty; in every other case
    one alert is raised and the socket, the history and the frames sent are
    as before. *)
Theorem send_buttons_guard (text_ : string) (parsed : option Z) (p : Page) :
  (sent (sendChat trim text_ p) <> sent p <->
   socket p = Some OPEN /\ trim text_ <> "") /\
  (sent (sendAction trim text_ parsed p) <> sent p <->
   socket p = Some OPEN /\ trim text_ <> "") /\
  (socket p <> Some OPEN \/ trim text_ = "" ->
   exists msg : string,
     sendChat trim text_ p =
       mkPage (socket p) (chatHistory p) (sent p) (alerts p ++ [msg]) /\
     exists msg' : string,
       sendAction trim text_ parsed p =
         mkPage (socket p) (chatHistory p) (sent p) (alerts p ++ [msg'])).
Proof.
  destruct (sendChat_cases text_ p)
    as [(Hs & Hne & frame & Hsent)|(Hnot & msg & Hpage)];
  destruct (sendAction_cases text_ parsed p)
    as [(Hs' & Hne' & frame' & Hsent')|(Hnot' & msg' & Hpage')].
  - rewrite Hsent, Hsent'. split; [|split].
    + split; [auto | intros _; apply snoc_neq].
    + split; [auto | intros _; apply snoc_neq].
    + intros [H|H]; contradiction.
  - destruct Hnot' as [H|H]; contradiction.
  - destruct Hnot as [H|H]; contradiction.
  - rewrite Hpage, Hpage'. cbn [sent]. split; [|split].
    + split; [intro H; now elim H | intros [H1 H2]; destruct Hnot; contradiction].
    + split; [intro H; now elim H | intros [H1 H2]; destruct Hnot; contradiction].
    + intros _. exists msg. split; [reflexivity|]. exists msg'. reflexivity.
Qed.

End TestPageFormsFacts.

Lemma chat_history_carries_message_witness :
  TestPageForms.histories
    (TestPageForms.sent
       (TestPageForms.sendChat (fun s => s) "hi"
          (TestPageForms.mkPage (Some OPEN) [] [] []))) =
  [[TestPageForms.history_entry "user" "hi"]].
Proof.
  exact (proj2 (proj1 (chat_history_carries_message (fun s => s) []
                         (TestPageForms.mkPage (Some OPEN) [] [] []))
                  "hi" eq_refl ltac:(discriminate))).
Defined.

Lemma max_steps_never_zero_witness :
  Forall (fun n => n <> 0%Z)
    (TestPageForms.maxSteps
       (TestPageForms.sent
          (TestPageForms.run (fun s => s)
             (TestPageForms.mkPage (Some OPEN) [] [] [])
             [TestPageForms.SendAction "open" (Some 0%Z);
              TestPageForms.SendAction "open" (Some 3%Z)]))).
Proof.
  exact (proj2 (max_steps_never_zero (fun s => s)
                  [TestPageForms.SendAction "open" (Some 0%Z);
                   TestPageForms.SendAction "open" (Some 3%Z)]
                  (TestPageForms.mkPage (Some OPEN) [] [] []))
           (Forall_nil _)).
Defined.

Lemma send_buttons_guard_witness :
  exists msg : string,
    TestPageForms.sendChat (fun s => s) "hi" (TestPageForms.mkPage None [] [] []) =
    TestPageForms.mkPage None [] [] [msg].
Proof.
  assert (Hsock : TestPageForms.socket (TestPageForms.mkPage None [] [] []) <> Some OPEN \/
                  (fun s : string => s) "hi" = "").
  { left. cbn. discriminate. }
  destruct (proj2 (proj2 (send_buttons_guard (fun s => s) "hi" None
                            (TestPageForms.mkPage None [] [] []))) Hsock)
    as (msg & H & _).
  exists msg. exact H.
Defined.

(** ** The atomic variant: every call that ends *)

(** X22: however a call of the atomic [sendMessage] ends, it ends not
    busy, with the draft untouched and with the log extended by the USER
    entry followed by at most one AI entry, which has no [needsMoreInfo];
    the AI entry is missing only when the response has no body. *)
Theorem atomic_call_completes
  (message : string) (h h' : Atomic.Hook) (evs : list Atomic.Event) :
  Atomic.resumes Atomic.AwaitFetch evs (fst (Atomic.sendMessage message h)) =
    Some (h', Atomic.Idle) ->
  Atomic.isGenerating h' = false /\
  Atomic.currMessage h' = Atomic.currMessage h /\
  exists added : list Message,
    Atomic.messages h' = Atomic.messages h ++ mkMessage message USER None :: added /\
    List.length added <= 1 /\
    Forall (fun e => sender e = AI /\ needsMoreInfo e = None) added /\
    (added = [] <-> evs = [Atomic.FetchResolved true]).
Proof.
  cbn [Atomic.sendMessage fst].
  destruct evs as [|ev1 evs]; cbn [Atomic.resumes]; [discriminate|].
  destruct ev1 as [|[|]| |data]; cbn [Atomic.resume]; try discriminate.
  - destruct evs as [|ev2 evs]; cbn [Atomic.resumes Atomic.resume];
      [|destruct ev2 as [|[|]| |]; discriminate].
    intros [= <-]. cbn. repeat split; auto.
    eexists [_]. cbn. rewrite <- app_assoc. repeat split; auto;
      try discriminate; repeat constructor.
  - destruct evs as [|ev2 evs]; cbn [Atomic.resumes Atomic.resume];
      [|destruct ev2 as [|[|]| |]; discriminate].
    intros [= <-]. cbn. repeat split; auto.
    exists []. repeat split; auto.
  - destruct evs as [|ev2 evs]; cbn [Atomic.resumes]; [discriminate|].
    destruct ev2 as [|[|]| |data]; cbn [Atomic.resume]; try discriminate;
      (destruct evs as [|ev3 evs]; cbn [Atomic.resumes Atomic.resume];
       [|destruct ev3 as [|[|]| |]; discriminate]).
    + intros [= <-]. cbn. repeat split; auto.
      eexists [_]. cbn. rewrite <- app_assoc. repeat split; auto;
        try discriminate; repeat constructor.
    + intros [= <-]. repeat split; [destruct (data_needs_more_info data); reflexivity ..|].
      exists [mkMessage (data_content data) AI None].
      destruct (data_needs_more_info data); cbn; rewrite <- app_assoc;
        repeat split; auto; try discriminate; repeat constructor.
Qed.

Lemma atomic_call_completes_witness :
  Atomic.isGenerating
    (Atomic.mkHook [mkMessage "hi" USER None] DEFAULT_MESSAGE false) = false.
Proof.
  exact (proj1 (atomic_call_completes "hi" Atomic.init
                  (Atomic.mkHook [mkMessage "hi" USER None] DEFAULT_MESSAGE false)
                  [Atomic.FetchResolved true] eq_refl)).
Defined.
